(** * youtube_auto_downloader.py: clipboard monitor, dedup ledger, FIFO worker

    A shallow embedding of [YouTubeAutoDownloader] and the properties of its
    queued, single-worker download pipeline.

    Conventions of the embedding.
    - A Python [str] is a [string]; each [ascii] stands for one code point in
      the range U+0000..U+00FF, so slicing and [len] count characters.
    - [set()] is a [gset string]; [queue.Queue] is a list whose head is the
      next item returned by [get()], with the counter [task_done] decrements;
      Python's [None] in the queue is [option]'s [None].
    - The program has two threads, the clipboard monitor (the only caller of
      [add_to_queue]) and the download worker, and they are interleaved at
      two grains. In [run] one pass of the monitor loop is one action and
      [ydl_opts] is taken to be built: this is the program between two passes
      of the monitor, with a configuration of the types of [default_config]
      ([run_in_moves]). In [play] the monitor is cut into program points
      ([mphase]) as well, at each access to what it shares with the worker
      and between the lines 169 and 172; the pause of the loop is a move
      that can raise; and the worker builds [ydl_opts] from the
      configuration, which can raise before the [try] (lines 221-240).
      At both grains the worker is cut into program points ([wphase]) at
      each of its writes to the queue and to the two current-download
      fields; a read of [qsize()] that feeds a notification text is taken
      together with the log record next to it. [queue_lock] is taken by the
      worker alone, so it orders nothing, and is not modelled; nor is
      [KeyboardInterrupt].
    - [self.logger] and [show_notification] write to one [log], in order.
    - [self.config] is what [load_config] returns, a dictionary of JSON
      values; nothing checks the types of its values. *)

From Stdlib Require Import Ascii String NArith Bool List Lia.
From stdpp Require Import base option list gmap strings.

Local Open Scope string_scope.

(** ** Strings *)

Module Str.

(** [s[:n]] *)
Definition slice_to (n : nat) (s : string) : string := substring 0 n s.

(** [s.startswith(p)] *)
Definition startswith (p s : string) : bool := String.prefix p s.

End Str.

(** ** The part of Python's [re] used by the program *)

Module Re.

Definition code (c : ascii) : N := N_of_ascii c.

Definition between (lo hi n : N) : bool := ((lo <=? n) && (n <=? hi))%N.

(** [str.lower] on one character (simple case mapping, U+0000..U+00FF). *)
Definition unicode_tolower (c : ascii) : ascii :=
  let n := code c in
  if between 65 90 n || (between 192 222 n && negb (n =? 215)%N)
  then ascii_of_N (n + 32) else c.

(** [str.isalnum] on one character (U+0000..U+00FF). *)
Definition unicode_isalnum (c : ascii) : bool :=
  let n := code c in
  between 48 57 n || between 65 90 n || between 97 122 n
  || (n =? 170)%N || between 178 179 n || (n =? 181)%N
  || between 185 186 n || between 188 190 n
  || between 192 214 n || between 216 246 n || between 248 255 n.

(** The category [\w]. *)
Definition category_word (c : ascii) : bool :=
  unicode_isalnum c || Ascii.eqb c "_".

(** A literal compared under [re.IGNORECASE]. *)
Definition literal_ignore (p x : ascii) : bool :=
  Ascii.eqb (unicode_tolower x) (unicode_tolower p).

(** Members of a bracket expression. *)
Inductive set_item :=
| Category_word
| Literal (c : ascii).

Definition item_member (x : ascii) (i : set_item) : bool :=
  match i with
  | Category_word => category_word x
  | Literal c => literal_ignore c x
  end.

Definition set_member (cs : list set_item) (x : ascii) : bool :=
  existsb (item_member x) cs.

(** The regular expressions the four patterns are made of. *)
Inductive regex :=
| Eps
| Lit (c : ascii)
| Cat (r1 r2 : regex)
| Opt (r : regex)                 (* r?  greedy *)
| Plus (cs : list set_item)       (* [cs]+  greedy *)
| Group (r : regex).              (* ( r ) *)

(** A run of literal characters. *)
Fixpoint lits (s : string) : regex :=
  match s with
  | EmptyString => Eps
  | String c EmptyString => Lit c
  | String c s' => Cat (Lit c) (lits s')
  end.

Section Backtrack.
Context {A : Type}.

(** [[cs]*] then the continuation: longest run first, then shorter. *)
Fixpoint bt_star (cs : list set_item) (s : string)
         (k : string -> option A) : option A :=
  match s with
  | String x s' =>
      if set_member cs x then
        match bt_star cs s' k with
        | Some a => Some a
        | None => k s
        end
      else k s
  | EmptyString => k s
  end.

(** The backtracking matcher: [bt r s k] matches [r] at the front of [s]
    and hands the rest to [k]; alternatives are tried in the engine's
    order (the optional part first, the longest repetition first). *)
Fixpoint bt (r : regex) (s : string) (k : string -> option A) : option A :=
  match r with
  | Eps => k s
  | Lit c =>
      match s with
      | String x s' => if literal_ignore c x then k s' else None
      | EmptyString => None
      end
  | Cat r1 r2 => bt r1 s (fun s' => bt r2 s' k)
  | Opt r1 =>
      match bt r1 s k with
      | Some a => Some a
      | None => k s
      end
  | Plus cs =>
      match s with
      | String x s' => if set_member cs x then bt_star cs s' k else None
      | EmptyString => None
      end
  | Group r1 => bt r1 s k
  end.
End Backtrack.

(** A match object: where the match starts and [group(0)]. *)
Record re_match := { m_start : nat; group0 : string }.

(** [pattern.match] at the front of [s]. *)
Definition match_here (r : regex) (pos : nat) (s : string) : option re_match :=
  match bt r s Some with
  | Some rest =>
      Some {| m_start := pos;
              group0 := Str.slice_to (String.length s - String.length rest) s |}
  | None => None
  end.

(** [re.search]: the first position, from the left, where the pattern
    matches. *)
Fixpoint search_from (r : regex) (pos : nat) (s : string) : option re_match :=
  match match_here r pos s with
  | Some m => Some m
  | None =>
      match s with
      | EmptyString => None
      | String _ s' => search_from r (S pos) s'
      end
  end.

Definition search (r : regex) (s : string) : option re_match :=
  search_from r 0 s.

(** The language of a pattern, independent of the engine. *)
Inductive Matches : regex -> string -> Prop :=
| M_eps : Matches Eps ""
| M_lit c x : literal_ignore c x = true -> Matches (Lit c) (String x "")
| M_cat r1 r2 w1 w2 :
    Matches r1 w1 -> Matches r2 w2 -> Matches (Cat r1 r2) (w1 ++ w2)
| M_opt_none r : Matches (Opt r) ""
| M_opt_some r w : Matches r w -> Matches (Opt r) w
| M_plus_one cs x : set_member cs x = true -> Matches (Plus cs) (String x "")
| M_plus_more cs x w :
    set_member cs x = true -> Matches (Plus cs) w ->
    Matches (Plus cs) (String x w)
| M_group r w : Matches r w -> Matches (Group r) w.

End Re.

(** ** Python values and results *)

#[warnings="-register-all"]
Inductive pyval :=
| PyNone
| PyBool (b : bool)
| PyInt (z : Z)
| PyStr (s : string)
| PyBytes (b : list Byte.byte)
| PyList (l : list pyval).

(** Exceptions below [Exception]; [Error] stands for any other class of
    that hierarchy, with its [str(e)]. *)
Inductive exn :=
| TypeError
| ValueError
| Error (msg : string).

Inductive result (A : Type) :=
| Return (a : A)
| Raise (e : exn).
Arguments Return {A} a.
Arguments Raise {A} e.

(** [bool(v)] *)
Definition truthy (v : pyval) : bool :=
  match v with
  | PyNone => false
  | PyBool b => b
  | PyInt z => negb (z =? 0)%Z
  | PyStr s => negb (String.eqb s "")
  | PyBytes b => negb (Nat.eqb (List.length b) 0)
  | PyList l => negb (Nat.eqb (List.length l) 0)
  end.

(** [isinstance(v, str)] *)
Definition isinstance_str (v : pyval) : bool :=
  match v with
  | PyStr _ => true
  | _ => false
  end.

(** [re.search(pattern, text, re.IGNORECASE)] for a [str] pattern: anything
    but a [str] is refused with [TypeError]. *)
Definition re_search (r : Re.regex) (text : pyval) : result (option Re.re_match) :=
  match text with
  | PyStr s => Return (Re.search r s)
  | _ => Raise TypeError
  end.

(** ** The link matcher *)

Import Re.

Definition scheme : regex :=
  Opt (Group (Cat (lits "http") (Cat (Opt (Lit "s")) (lits "://")))).

Definition www : regex := Opt (Group (lits "www.")).

Definition word_dash : list set_item := [Category_word; Literal "-"].

(** [(https?://)?(www\.)?(<body>[\w-]+)] *)
Definition link_pattern (body : string) : regex :=
  Cat scheme (Cat www (Group (Cat (lits body) (Plus word_dash)))).

Definition watch_pattern : regex := link_pattern "youtube.com/watch?v=".
Definition short_pattern : regex := link_pattern "youtu.be/".
Definition shorts_pattern : regex := link_pattern "youtube.com/shorts/".
Definition playlist_pattern : regex := link_pattern "youtube.com/playlist?list=".

Definition youtube_patterns : list regex :=
  [watch_pattern; short_pattern; shorts_pattern; playlist_pattern].

(** Lines 141-144: [group(0)], with ["https://"] put in front unless it
    starts with ["http"]. *)
Definition extract_url (m : re_match) : string :=
  let url := group0 m in
  if negb (Str.startswith "http" url) then "https://" ++ url else url.

(** The [for pattern in self.youtube_patterns] loop. *)
Fixpoint first_pattern (ps : list regex) (text : pyval) : result (option string) :=
  match ps with
  | [] => Return None
  | p :: ps' =>
      match re_search p text with
      | Raise e => Raise e
      | Return (Some m) => Return (Some (extract_url m))
      | Return None => first_pattern ps' text
      end
  end.

Definition is_youtube_url (text : pyval) : result (option string) :=
  if negb (truthy text) || negb (isinstance_str text) then Return None
  else first_pattern youtube_patterns text.

(** ** The download pipeline *)

(** What [ydl.extract_info(url, download=True)] does, as seen by the worker
    (lines 243-245): it returns an info dict, with or without a ['title']
    (a [str] when there is one); it raises an [Exception]; or it raises
    outside the [Exception] hierarchy ([SystemExit] and the like), which
    neither line 263 nor line 204 catches. *)
Inductive outcome :=
| Downloaded (title : option string)
| Failed (e : exn)
| Aborted.

(** [str(e)] *)
Definition str_exn (e : exn) : string :=
  match e with
  | TypeError => "TypeError"
  | ValueError => "ValueError"
  | Error msg => msg
  end.

(** Calls of [show_notification], by call site. *)
Inductive notification :=
| N_added_first (queue_size : nat)                      (* line 177 *)
| N_added_position (queue_size : nat) (current : string) (* line 183 *)
| N_started (queue_remaining : nat)                     (* line 216 *)
| N_complete_next (title50 : string) (queue_remaining : nat) (* line 251 *)
| N_complete_empty (title50 : string)                   (* line 257 *)
| N_failed (error100 : string).                         (* line 266 *)

(** What the program writes: [self.logger] records and notifications. *)
Inductive event :=
| Log_already_queued (url : string)                 (* line 165 *)
| Log_added (url : string)                          (* line 176 *)
| Log_added_position (position : nat) (url : string) (* line 182 *)
| Log_starting (url : string)                       (* line 215 *)
| Log_success (title : string)                      (* line 247 *)
| Log_failed (error_msg : string)                   (* line 265 *)
| Log_worker_error (e : exn)                        (* line 205 *)
| Log_detected (url : string)                       (* line 299 *)
| Log_monitor_error (e : exn)                       (* line 307 *)
| Notify (n : notification).

(** Program points of [_download_worker] and of the [_download_video] it
    calls. *)
Inductive wphase :=
| WGet                                   (* line 193, at [get()] *)
| WPopped (item : option string)         (* line 195, [get()] returned *)
| WFlagged (url : string)                (* line 211, [is_downloading] is set *)
| WEntered (url : string)                (* line 213, both fields are set *)
| WRunning (url : string)                (* line 244, in [extract_info] *)
| WFinally (url : string) (escapes : bool) (* line 273 *)
| WUnflagged (url : string) (escapes : bool) (* line 274, [is_downloading] is cleared *)
| WTaskDone                              (* line 202 *)
| WDead.                                 (* the thread has ended *)

Record downloader := Downloader {
  notifications : bool;   (* config['enable_notifications'] and NOTIFICATIONS_AVAILABLE *)
  downloaded_urls : gset string;
  last_clipboard : string;
  download_queue : list (option string);
  unfinished_tasks : nat; (* the Queue's own counter, for [task_done] *)
  is_downloading : bool;
  current_download : option string;
  worker : wphase;
  log : list event
}.

(** [__init__], lines 57-70. *)
Definition init (notify : bool) : downloader :=
  {| notifications := notify;
     downloaded_urls := ∅;
     last_clipboard := "";
     download_queue := [];
     unfinished_tasks := 0;
     is_downloading := false;
     current_download := None;
     worker := WGet;
     log := [] |}.

Definition set_downloaded_urls (s : gset string) (d : downloader) : downloader :=
  Downloader (notifications d) s (last_clipboard d) (download_queue d)
    (unfinished_tasks d) (is_downloading d) (current_download d) (worker d) (log d).

Definition set_last_clipboard (c : string) (d : downloader) : downloader :=
  Downloader (notifications d) (downloaded_urls d) c (download_queue d)
    (unfinished_tasks d) (is_downloading d) (current_download d) (worker d) (log d).

Definition set_queue (q : list (option string)) (n : nat) (d : downloader) : downloader :=
  Downloader (notifications d) (downloaded_urls d) (last_clipboard d) q
    n (is_downloading d) (current_download d) (worker d) (log d).

Definition set_current (b : bool) (c : option string) (d : downloader) : downloader :=
  Downloader (notifications d) (downloaded_urls d) (last_clipboard d) (download_queue d)
    (unfinished_tasks d) b c (worker d) (log d).

Definition set_worker (w : wphase) (d : downloader) : downloader :=
  Downloader (notifications d) (downloaded_urls d) (last_clipboard d) (download_queue d)
    (unfinished_tasks d) (is_downloading d) (current_download d) w (log d).

Definition emit (e : event) (d : downloader) : downloader :=
  Downloader (notifications d) (downloaded_urls d) (last_clipboard d) (download_queue d)
    (unfinished_tasks d) (is_downloading d) (current_download d) (worker d) (log d ++ [e])%list.

(** [show_notification], lines 147-160. The display mechanism is taken to
    accept the notification; were it to raise, line 160 would log a warning
    and return all the same. *)
Definition show_notification (n : notification) (d : downloader) : downloader :=
  if negb (notifications d) then d else emit (Notify n) d.

(** [download_queue.put(item)] *)
Definition put (item : option string) (d : downloader) : downloader :=
  set_queue (download_queue d ++ [item])%list (S (unfinished_tasks d)) d.

(** [download_queue.qsize()] *)
Definition qsize (d : downloader) : nat := List.length (download_queue d).

(** [self.current_download or 'Starting...'] *)
Definition current_or_starting (d : downloader) : string :=
  match current_download d with
  | Some c => if truthy (PyStr c) then c else "Starting..."
  | None => "Starting..."
  end.

(** [add_to_queue], lines 162-186. *)
Definition add_to_queue (url : string) (d : downloader) : downloader :=
  if bool_decide (url ∈ downloaded_urls d) then emit (Log_already_queued url) d
  else
    let d := set_downloaded_urls ({[url]} ∪ downloaded_urls d) d in
    let d := put (Some url) d in
    let queue_size := qsize d in
    if Nat.eqb queue_size 1 && negb (is_downloading d) then
      show_notification (N_added_first queue_size) (emit (Log_added url) d)
    else
      show_notification (N_added_position queue_size (current_or_starting d))
        (emit (Log_added_position queue_size url) d).

(** What [pyperclip.paste()] does in one pass of the monitor loop. *)
Inductive paste :=
| Pasted (clipboard_content : string)
| PasteError (e : exn).

(** One pass of the loop of [monitor_clipboard], lines 290-308. *)
Definition monitor_tick (p : paste) (d : downloader) : downloader :=
  match p with
  | Pasted clipboard_content =>
      if negb (String.eqb clipboard_content (last_clipboard d)) then
        let d := set_last_clipboard clipboard_content d in
        match is_youtube_url (PyStr clipboard_content) with
        | Return (Some youtube_url) =>
            if truthy (PyStr youtube_url) then
              add_to_queue youtube_url (emit (Log_detected youtube_url) d)
            else d
        | Return None => d
        | Raise e => emit (Log_monitor_error e) d
        end
      else d
  | PasteError e => emit (Log_monitor_error e) d
  end.

(** [url[:50] + "..."], line 211. *)
Definition display_name (url : string) : string := Str.slice_to 50 url ++ "...".

(** The worker's next move, from its program point; [None] when it cannot
    move by itself: blocked in [get()] on an empty queue, waiting for
    [extract_info], or ended. This is the worker with a configuration from
    which lines 221-240 can build [ydl_opts]; [worker_step_with] has the
    configuration, and the exception those lines raise when they cannot. *)
Definition worker_step (d : downloader) : option downloader :=
  match worker d with
  | WGet =>
      match download_queue d with
      | [] => None
      | item :: rest => Some (set_worker (WPopped item) (set_queue rest (unfinished_tasks d) d))
      end
  | WPopped None => Some (set_worker WDead d)
  | WPopped (Some url) =>
      Some (set_worker (WFlagged url) (set_current true (current_download d) d))
  | WFlagged url =>
      Some (set_worker (WEntered url)
              (set_current (is_downloading d) (Some (display_name url)) d))
  | WEntered url =>
      let queue_remaining := qsize d in
      Some (set_worker (WRunning url)
              (show_notification (N_started queue_remaining) (emit (Log_starting url) d)))
  | WRunning _ => None
  | WFinally url escapes =>
      Some (set_worker (WUnflagged url escapes) (set_current false (current_download d) d))
  | WUnflagged _ escapes =>
      Some (set_worker (if escapes then WDead else WTaskDone)
              (set_current (is_downloading d) None d))
  | WTaskDone =>
      match unfinished_tasks d with
      | O => Some (set_worker WGet (emit (Log_worker_error ValueError) d))
      | S n => Some (set_worker WGet (set_queue (download_queue d) n d))
      end
  | WDead => None
  end.

(** [extract_info] comes back with outcome [o]: lines 245-270, up to the
    [finally]. *)
Definition download_returns (o : outcome) (d : downloader) : option downloader :=
  match worker d with
  | WRunning url =>
      match o with
      | Downloaded title =>
          let video_title := default "Unknown" title in
          let d := emit (Log_success video_title) d in
          let queue_remaining := qsize d in
          Some (set_worker (WFinally url false)
                  (show_notification
                     (if Nat.ltb 0 queue_remaining
                      then N_complete_next (Str.slice_to 50 video_title) queue_remaining
                      else N_complete_empty (Str.slice_to 50 video_title)) d))
      | Failed e =>
          let error_msg := str_exn e in
          Some (set_worker (WFinally url false)
                  (show_notification (N_failed (Str.slice_to 100 error_msg))
                     (emit (Log_failed error_msg) d)))
      | Aborted => Some (set_worker (WFinally url true) d)
      end
  | _ => None
  end.

(** The moves of the whole program at the coarser grain: a pass of the
    monitor loop taken in one piece, a move of the worker, the return of the
    download operation. [move] and [next] cut the pass into its steps. *)
Inductive action :=
| Tick (p : paste)
| Work
| Returns (o : outcome).

Definition exec (a : action) (d : downloader) : option downloader :=
  match a with
  | Tick p => Some (monitor_tick p d)
  | Work => worker_step d
  | Returns o => download_returns o d
  end.

Fixpoint run (tr : list action) (d : downloader) : option downloader :=
  match tr with
  | [] => Some d
  | a :: tr' =>
      match exec a d with
      | Some d' => run tr' d'
      | None => None
      end
  end.

(** The worker's moves for one item once [get()] can return: the pop, the
    two assignments of lines 210-211, the announcement, the download's
    outcome, the two assignments of the [finally], [task_done]. *)
Definition attempt (o : outcome) : list action :=
  [Work; Work; Work; Work; Returns o; Work; Work; Work].

(** The worker's moves from [get()] to the call of [extract_info]. *)
Definition start_download : list action := [Work; Work; Work; Work].

(** Links in the order their downloads were started (line 215). *)
Definition started (l : list event) : list string :=
  omap (fun e => match e with Log_starting url => Some url | _ => None end) l.

(** Links in the order they were accepted into the queue (lines 176, 182). *)
Definition enqueued (l : list event) : list string :=
  omap (fun e => match e with
                 | Log_added url | Log_added_position _ url => Some url
                 | _ => None
                 end) l.

(** The link the worker holds between [get()] and line 215. *)
Definition in_hand (w : wphase) : list (option string) :=
  match w with
  | WPopped item => [item]
  | WFlagged url | WEntered url => [Some url]
  | _ => []
  end.

(** The link whose download the worker is executing, if any: from the
    assignment of line 211 to the one of line 274. *)
Definition in_flight (w : wphase) : option string :=
  match w with
  | WEntered url | WRunning url | WFinally url _ | WUnflagged url _ => Some url
  | _ => None
  end.

(** Where [is_downloading] is set: from line 210 to line 273. *)
Definition busy (w : wphase) : bool :=
  match w with
  | WFlagged _ | WEntered _ | WRunning _ | WFinally _ _ => true
  | _ => false
  end.

(** The worker is outside [_download_video]. *)
Definition idle (w : wphase) : bool :=
  match w with
  | WGet | WPopped _ | WTaskDone | WDead => true
  | _ => false
  end.

(** The shared fields agree with the worker's program point. *)
Definition flags_ok (d : downloader) : Prop :=
  is_downloading d = busy (worker d) /\
  current_download d = display_name <$> in_flight (worker d).

(** Outside [_download_video] the two fields are empty, and from line 274
    on [is_downloading] is. *)
Definition released (d : downloader) : Prop :=
  match worker d with
  | WUnflagged _ _ => is_downloading d = false
  | w => idle w = true -> is_downloading d = false /\ current_download d = None
  end.


(** The item the worker holds from [get()] until [_download_video] is
    left. *)
Definition held (w : wphase) : list (option string) :=
  match w with
  | WPopped item => [item]
  | WFlagged url | WEntered url | WRunning url
  | WFinally url _ | WUnflagged url _ => [Some url]
  | _ => []
  end.

(** Started links, then the one in hand, then the queue: the accepted links
    in the order of their acceptance. *)
Definition fifo_ok (d : downloader) : Prop :=
  Some <$> enqueued (log d)
  = ((Some <$> started (log d)) ++ in_hand (worker d) ++ download_queue d)%list.

(** What is held or queued is a link of the ledger, once. *)
Definition pending_ok (d : downloader) : Prop :=
  NoDup (held (worker d) ++ download_queue d)%list /\
  forall x, x ∈ (held (worker d) ++ download_queue d)%list ->
            exists url, x = Some url /\ url ∈ downloaded_urls d.

(** States the program gets to from [__init__]. *)
Definition reachable (d : downloader) : Prop :=
  exists notify tr, run tr (init notify) = Some d.

(** Sample data for the examples. *)
Definition watch_link : string := "https://www.youtube.com/watch?v=abc123XYZ9".
Definition short_link : string := "https://youtu.be/abc123XYZ9".

(** The state after the monitor has seen [watch_link] on the clipboard. *)
Definition detected : downloader := monitor_tick (Pasted watch_link) (init true).

(** Two playlist links that differ after their fiftieth character. *)
Definition playlist_a : string :=
  "https://www.youtube.com/playlist?list=PL0123456789abcdefghij_A".
Definition playlist_b : string :=
  "https://www.youtube.com/playlist?list=PL0123456789abcdefghij_B".

(** The monitor sees [url] on the clipboard of a fresh downloader and the
    worker gets as far as [extract_info]. *)
Definition download_of (url : string) : option downloader :=
  run (Tick (Pasted url) :: start_download) (init true).

(** The state with [watch_link] and then [short_link] accepted and the
    worker still at [get()]. *)
Definition two_queued : downloader :=
  monitor_tick (Pasted short_link) (monitor_tick (Pasted watch_link) (init true)).

(** ** Further definitions *)

(** The text has, somewhere, a link of one of the four shapes. *)
Definition contains_link (text : string) : Prop :=
  exists p pre w post,
    p ∈ youtube_patterns /\ text = pre ++ w ++ post /\ Matches p w.

(** The first character of a string, if any, is in the bracket expression. *)
Definition starts_in (cs : list set_item) (s : string) : bool :=
  match s with
  | EmptyString => false
  | String c _ => set_member cs c
  end.

(** The lengths the notification texts are cut to (lines 253, 259, 268). *)
Definition notification_ok (n : notification) : Prop :=
  match n with
  | N_failed error100 => String.length error100 <= 100
  | N_complete_next title50 _ | N_complete_empty title50 => String.length title50 <= 50
  | _ => True
  end.

(** What may be written to the log from state [d]: a notification only
    when notifications are on, the worker's own error record only when
    [task_done()] is called with nothing to finish. *)
Definition event_ok (d : downloader) (e : event) : Prop :=
  match e with
  | Notify n => notifications d = true /\ notification_ok n
  | Log_worker_error _ => worker d = WTaskDone /\ unfinished_tasks d = 0
  | _ => True
  end.

(** The worker holds an item that [task_done()] has not been called for. *)
Definition owed (w : wphase) : nat :=
  match w with
  | WGet | WDead => 0
  | _ => 1
  end.

(** The records of line 205 in a log. *)
Definition worker_errors (l : list event) : list exn :=
  omap (fun e => match e with Log_worker_error x => Some x | _ => None end) l.

(** The notifications in a log. *)
Definition notified (l : list event) : list notification :=
  omap (fun e => match e with Notify n => Some n | _ => None end) l.

(** The log without its notifications. *)
Definition records (l : list event) : list event :=
  List.filter (fun e => match e with Notify _ => false | _ => true end) l.

(** The same state with notifications off and none in the log. *)
Definition silent (d : downloader) : downloader :=
  Downloader false (downloaded_urls d) (last_clipboard d) (download_queue d)
    (unfinished_tasks d) (is_downloading d) (current_download d) (worker d)
    (records (log d)).

(** The ledger holds the accepted links, each accepted once. *)
Definition accepted_ok (d : downloader) : Prop :=
  NoDup (enqueued (log d)) /\
  forall url, url ∈ downloaded_urls d <-> url ∈ enqueued (log d).

(** The link is what the matcher returns for some text. *)
Definition from_matcher (url : string) : Prop :=
  exists text, is_youtube_url (PyStr text) = Return (Some url).

(** [task_done()] has something to finish whenever it is called, and line
    205 has logged nothing. *)
Definition tasks_ok (d : downloader) : Prop :=
  qsize d + owed (worker d) <= unfinished_tasks d /\ worker_errors (log d) = [].

(** ** The configuration *)

(** What [json.load] returns. A number is kept as its literal; the items of
    an object are in the order of the file, their keys distinct. *)
#[warnings="-register-all"]
Inductive json :=
| JNull
| JBool (b : bool)
| JNum (literal : string)
| JStr (s : string)
| JList (l : list json)
| JDict (items : list (string * json)).

(** [d[k] = v] for each item in turn, on the entries of [d] whose key is a
    string. *)
Definition set_items (items : list (string * json)) (d : gmap string json)
  : gmap string json :=
  fold_left (fun d kv => <[kv.1 := kv.2]> d) items d.

(** [path.endswith('/')] *)
Fixpoint ends_with_slash (path : string) : bool :=
  match path with
  | EmptyString => false
  | String c EmptyString => Ascii.eqb c "/"
  | String _ rest => ends_with_slash rest
  end.

(** [posixpath.join(a, *p)] on strings. *)
Definition path_join (a : string) (p : list string) : string :=
  fold_left (fun path b =>
               if Str.startswith "/" b then b
               else if String.eqb path "" || ends_with_slash path then path ++ b
               else path ++ "/" ++ b) p a.

(** The dict literal of lines 82-89; [home] is [os.path.expanduser("~")]. *)
Definition default_items (home : string) : list (string * json) :=
  [("download_path", JStr (path_join home ["Downloads"; "YouTube"]));
   ("video_format", JStr "bestvideo[ext=mp4]+bestaudio[ext=m4a]/best[ext=mp4]/best");
   ("enable_notifications", JBool true);
   ("check_interval", JNum "1.0");
   ("filename_template", JStr "%(title)s-%(id)s.%(ext)s");
   ("merge_output_format", JStr "mp4")].

Definition default_config (home : string) : gmap string json :=
  set_items (default_items home) ∅.

(** An element of the sequence given to [dict.update], as a key and a
    value: a list of two elements, a string of two characters, or an object
    of two keys; anything else is refused. *)
Definition pair_of (item : json) : result (json * json) :=
  match item with
  | JList [k; v] => Return (k, v)
  | JStr (String c1 (String c2 EmptyString)) =>
      Return (JStr (String c1 ""), JStr (String c2 ""))
  | JDict [(k1, _); (k2, _)] => Return (JStr k1, JStr k2)
  | JList _ | JStr _ | JDict _ => Raise ValueError
  | JNull | JBool _ | JNum _ => Raise TypeError
  end.

(** [d[key] = value]: a list or an object cannot be a key; a key that is
    no string touches no entry read by the program. *)
Definition set_item (key value : json) (d : gmap string json)
  : result (gmap string json) :=
  match key with
  | JStr k => Return (<[k := value]> d)
  | JNull | JBool _ | JNum _ => Return d
  | JList _ | JDict _ => Raise TypeError
  end.

(** [d.update(seq)] for a sequence: item after item, until one is refused;
    what was set before stays set. *)
Fixpoint update_seq (seq : list json) (d : gmap string json)
  : gmap string json * option exn :=
  match seq with
  | [] => (d, None)
  | item :: seq' =>
      match pair_of item with
      | Raise e => (d, Some e)
      | Return (key, value) =>
          match set_item key value d with
          | Raise e => (d, Some e)
          | Return d' => update_seq seq' d'
          end
      end
  end.

(** [d.update(other)], line 95, with what it raises. *)
Definition dict_update (other : json) (d : gmap string json)
  : gmap string json * option exn :=
  match other with
  | JDict items => (set_items items d, None)
  | JList seq => update_seq seq d
  | JStr EmptyString => (d, None)
  | JStr _ => (d, Some ValueError)
  | JNull | JBool _ | JNum _ => (d, Some TypeError)
  end.

(** What [load_config] finds at [config_path]: no file, and whether writing
    one raises; a file that cannot be opened, decoded or parsed; a file that
    [json.load] reads. *)
Inductive config_file :=
| NoFile (create : option exn)
| BadFile (e : exn)
| LoadedFile (user_config : json).

(** The lines [load_config] prints. *)
Inductive printed :=
| Print_error_loading (e : exn)                 (* line 97 *)
| Print_created (config_path : string)          (* line 103 *)
| Print_could_not_create (e : exn).             (* line 105 *)

Record loaded := Loaded {
  config : gmap string json;
  prints : list printed;
  written : option (list (string * json))  (* what [json.dump] was given *)
}.

(** [load_config], lines 80-107. *)
Definition load_config (home config_path : string) (file : config_file) : loaded :=
  let default_config := default_config home in
  match file with
  | LoadedFile user_config =>
      match dict_update user_config default_config with
      | (default_config, None) => Loaded default_config [] None
      | (default_config, Some e) => Loaded default_config [Print_error_loading e] None
      end
  | BadFile e => Loaded default_config [Print_error_loading e] None
  | NoFile None =>
      Loaded default_config [Print_created config_path] (Some (default_items home))
  | NoFile (Some e) => Loaded default_config [Print_could_not_create e] None
  end.

(** [self.config[key]] *)
Definition getitem (d : gmap string json) (key : string) : result json :=
  match d !! key with
  | Some v => Return v
  | None => Raise (Error ("'" ++ key ++ "'"))
  end.

(** [os.path.join(a, b)] on values of the configuration. *)
Definition os_path_join (a b : json) : result string :=
  match a, b with
  | JStr a, JStr b => Return (path_join a [b])
  | _, _ => Raise TypeError
  end.

Definition result_bind {A B} (r : result A) (f : A -> result B) : result B :=
  match r with
  | Return a => f a
  | Raise e => Raise e
  end.

(** [ydl_opts], lines 221-240. *)
Record ydl_opts := YdlOpts {
  opt_format : json;
  opt_outtmpl : string;
  opt_merge_output_format : json;
  opt_quiet : bool;
  opt_no_warnings : bool;
  opt_ignoreerrors : bool;
  opt_updatetime : bool;
  opt_retries : nat;
  opt_fragment_retries : nat;
  opt_continuedl : bool;
  opt_nocheckcertificate : bool;
  opt_postprocessors : list (string * string)
}.

Definition build_ydl_opts (d : gmap string json) : result ydl_opts :=
  result_bind (getitem d "video_format") (fun format =>
  result_bind (getitem d "download_path") (fun download_path =>
  result_bind (getitem d "filename_template") (fun filename_template =>
  result_bind (os_path_join download_path filename_template) (fun outtmpl =>
  result_bind (getitem d "merge_output_format") (fun merge_output_format =>
  Return (YdlOpts format outtmpl merge_output_format
            false false false false 10 10 true true
            [("FFmpegVideoConvertor", "mp4")])))))).

(** [time.sleep(secs)] on a value of the configuration. A number read
    from JSON is kept as its literal, and [sleep_number] says what
    [time.sleep] does on it: it returns for a finite number that is not
    negative and raises [ValueError] or [OverflowError] for the others.
    [True] and [False] are the numbers 1 and 0; every other value is refused
    with [TypeError]. *)
Definition time_sleep (sleep_number : string -> option exn) (secs : json) : result unit :=
  match secs with
  | JBool _ => Return tt
  | JNum literal =>
      match sleep_number literal with
      | None => Return tt
      | Some e => Raise e
      end
  | JNull | JStr _ | JList _ | JDict _ => Raise TypeError
  end.

(** [time.sleep(self.config['check_interval'])], lines 302 and 308. *)
Definition sleep_interval (sleep_number : string -> option exn)
           (config : gmap string json) : result unit :=
  result_bind (getitem config "check_interval") (time_sleep sleep_number).

(** The body of the inner [try] of [monitor_clipboard], lines 291-302: the
    state it leaves and the exception it raises, if any. *)
Definition monitor_body (sleep_number : string -> option exn) (config : gmap string json)
           (p : paste) (d : downloader) : downloader * option exn :=
  let sleep d :=
    match sleep_interval sleep_number config with
    | Return _ => (d, None)
    | Raise e => (d, Some e)
    end in
  match p with
  | Pasted clipboard_content =>
      if negb (String.eqb clipboard_content (last_clipboard d)) then
        let d := set_last_clipboard clipboard_content d in
        match is_youtube_url (PyStr clipboard_content) with
        | Return (Some youtube_url) =>
            if truthy (PyStr youtube_url) then
              sleep (add_to_queue youtube_url (emit (Log_detected youtube_url) d))
            else sleep d
        | Return None => sleep d
        | Raise e => (d, Some e)
        end
      else sleep d
  | PasteError e => (d, Some e)
  end.

(** One pass of the loop of [monitor_clipboard] with the handler of lines
    306-308: the state it leaves and the exception that leaves the loop, if
    any. The handler sleeps too, outside every [try] that catches an
    [Exception]. [KeyboardInterrupt] is left out. *)
Definition monitor_pass (sleep_number : string -> option exn) (config : gmap string json)
           (p : paste) (d : downloader) : downloader * option exn :=
  match monitor_body sleep_number config p d with
  | (d, None) => (d, None)
  | (d, Some e) =>
      let d := emit (Log_monitor_error e) d in
      match sleep_interval sleep_number config with
      | Return _ => (d, None)
      | Raise e => (d, Some e)
      end
  end.

(** The worker's next move with the configuration in view. [ydl_opts] is
    built at lines 221-240, after the announcement of lines 215-219 and
    before the [try] of line 242: an exception raised there leaves
    [_download_video] past its [finally] and is caught at line 204, which
    logs it and goes back to [get()] with [task_done()] skipped. *)
Definition worker_step_with (config : gmap string json) (d : downloader)
  : option downloader :=
  match worker d with
  | WEntered url =>
      let queue_remaining := qsize d in
      let d := show_notification (N_started queue_remaining) (emit (Log_starting url) d) in
      match build_ydl_opts config with
      | Return _ => Some (set_worker (WRunning url) d)
      | Raise e => Some (set_worker WGet (emit (Log_worker_error e) d))
      end
  | _ => worker_step d
  end.

Definition exec_with (config : gmap string json) (a : action) (d : downloader)
  : option downloader :=
  match a with
  | Work => worker_step_with config d
  | _ => exec a d
  end.

Fixpoint run_with (config : gmap string json) (tr : list action) (d : downloader)
  : option downloader :=
  match tr with
  | [] => Some d
  | a :: tr' =>
      match exec_with config a d with
      | Some d' => run_with config tr' d'
      | None => None
      end
  end.

(** Both fields of the current download set while no download runs. *)
Definition wedged (e : exn) (d : downloader) : Prop :=
  is_downloading d = true /\ is_Some (current_download d) /\
  Log_worker_error e ∈ log d /\
  match worker d with
  | WGet | WPopped _ | WFlagged _ | WEntered _ | WDead => True
  | _ => False
  end.

(** ** The two threads, move by move *)

(** Program points of the monitor thread: the loop of [monitor_clipboard]
    and the [add_to_queue] it calls, cut at each access to what it shares
    with the worker (the queue, [is_downloading], [current_download], the
    log) and between the lines 169 and 172. *)
Inductive mphase :=
| MPaste                                 (* line 291, at [pyperclip.paste()] *)
| MDetected (url : string)               (* line 300, the link is logged *)
| MAdded (url : string)                  (* line 172, the link is in the ledger *)
| MPut (url : string)                    (* line 173, and on the queue *)
| MSized (url : string) (queue_size : nat)                  (* line 175 *)
| MChosen (url : string) (queue_size : nat) (first : bool)  (* line 176 or 182 *)
| MLogged (queue_size : nat)             (* line 183, before [current_download] is read *)
| MNotify (n : notification)             (* lines 177 and 183, at [show_notification] *)
| MSleep                                 (* line 302 *)
| MHandler                               (* line 308 *)
| MDead.                                 (* the main thread has ended *)

(** The monitor thread at its program point, and what the two threads
    share. *)
Record program := Program {
  monitor : mphase;
  shared : downloader
}.

(** A move of the program: [pyperclip.paste()] comes back, the monitor's
    next step inside a pass, the worker's next step, [extract_info] comes
    back. *)
Inductive move :=
| Reads (p : paste)
| Monitor
| Worker
| Comes (o : outcome).

(** Lines 291-299, from the value [pyperclip.paste()] gives to the first
    record written to the log. *)
Definition monitor_reads (p : paste) (d : downloader) : program :=
  match p with
  | Pasted clipboard_content =>
      if negb (String.eqb clipboard_content (last_clipboard d)) then
        let d := set_last_clipboard clipboard_content d in
        match is_youtube_url (PyStr clipboard_content) with
        | Return (Some youtube_url) =>
            if truthy (PyStr youtube_url) then
              Program (MDetected youtube_url) (emit (Log_detected youtube_url) d)
            else Program MSleep d
        | Return None => Program MSleep d
        | Raise e => Program MHandler (emit (Log_monitor_error e) d)
        end
      else Program MSleep d
  | PasteError e => Program MHandler (emit (Log_monitor_error e) d)
  end.

(** The monitor's next step inside a pass: [add_to_queue] (lines 164-186)
    one access at a time, then the pause of line 302 and, after an
    exception, the one of line 308, which no [try] covers. *)
Definition monitor_move (sleep_number : string -> option exn) (config : gmap string json)
           (m : mphase) (d : downloader) : option program :=
  match m with
  | MPaste | MDead => None
  | MDetected url =>
      if bool_decide (url ∈ downloaded_urls d) then
        Some (Program MSleep (emit (Log_already_queued url) d))
      else Some (Program (MAdded url) (set_downloaded_urls ({[url]} ∪ downloaded_urls d) d))
  | MAdded url => Some (Program (MPut url) (put (Some url) d))
  | MPut url => Some (Program (MSized url (qsize d)) d)
  | MSized url queue_size =>
      Some (Program (MChosen url queue_size
                       (Nat.eqb queue_size 1 && negb (is_downloading d))) d)
  | MChosen url queue_size first =>
      if first then
        Some (Program (MNotify (N_added_first queue_size)) (emit (Log_added url) d))
      else Some (Program (MLogged queue_size) (emit (Log_added_position queue_size url) d))
  | MLogged queue_size =>
      Some (Program (MNotify (N_added_position queue_size (current_or_starting d))) d)
  | MNotify n => Some (Program MSleep (show_notification n d))
  | MSleep =>
      match sleep_interval sleep_number config with
      | Return _ => Some (Program MPaste d)
      | Raise e => Some (Program MHandler (emit (Log_monitor_error e) d))
      end
  | MHandler =>
      match sleep_interval sleep_number config with
      | Return _ => Some (Program MPaste d)
      | Raise _ => Some (Program MDead d)
      end
  end.

(** One move; [None] when the move cannot be made in that state. *)
Definition next (sleep_number : string -> option exn) (config : gmap string json)
           (mv : move) (s : program) : option program :=
  match mv with
  | Reads p =>
      match monitor s with
      | MPaste => Some (monitor_reads p (shared s))
      | _ => None
      end
  | Monitor => monitor_move sleep_number config (monitor s) (shared s)
  | Worker => Program (monitor s) <$> worker_step_with config (shared s)
  | Comes o => Program (monitor s) <$> download_returns o (shared s)
  end.

Fixpoint play (sleep_number : string -> option exn) (config : gmap string json)
         (tr : list move) (s : program) : option program :=
  match tr with
  | [] => Some s
  | mv :: tr' =>
      match next sleep_number config mv s with
      | Some s' => play sleep_number config tr' s'
      | None => None
      end
  end.

(** The program after [__init__]: the monitor at its first look at the
    clipboard, the worker at [get()]. *)
Definition start (notify : bool) : program := Program MPaste (init notify).

(** States the program gets to, thread by thread. *)
Definition attainable (sleep_number : string -> option exn) (config : gmap string json)
           (s : program) : Prop :=
  exists notify tr, play sleep_number config tr (start notify) = Some s.

(** The link the monitor has put on the queue (line 172) and not yet logged
    (lines 176, 182). *)
Definition unlogged (m : mphase) : list string :=
  match m with
  | MPut url | MSized url _ | MChosen url _ _ => [url]
  | _ => []
  end.

(** The links in the order line 172 has put them on the queue. *)
Definition put_order (s : program) : list string :=
  (enqueued (log (shared s)) ++ unlogged (monitor s))%list.

(** The link that is in the ledger (line 169) and not yet on the queue
    (line 172). *)
Definition added (m : mphase) : list string :=
  match m with
  | MAdded url => [url]
  | _ => []
  end.

(** Started links, the item the worker has in hand, the queue. *)
Definition lineup (d : downloader) : list (option string) :=
  ((Some <$> started (log d)) ++ in_hand (worker d) ++ download_queue d)%list.




(** [ydl_opts] can be built from the configuration. *)
Definition buildable (config : gmap string json) : bool :=
  match build_ydl_opts config with
  | Return _ => true
  | Raise _ => false
  end.

(** The current-download fields against the worker's program point: as
    [flags_ok] has them when [ydl_opts] can be built; when it cannot, the
    worker never gets past line 240, and [current_download] is set while it
    is on its way there. *)
Definition tracks (config : gmap string json) (d : downloader) : Prop :=
  if buildable config then flags_ok d
  else match worker d with
       | WGet | WPopped _ | WFlagged _ | WDead => True
       | WEntered url => current_download d = Some (display_name url)
       | _ => False
       end.

(** Every link put on the queue is started, in hand or queued, in the
    order of the puts; and the ledger has these links and the one that is
    on its way to the queue. *)
Definition orderly (s : program) : Prop :=
  Some <$> put_order s = lineup (shared s) /\
  size (downloaded_urls (shared s))
  = length (lineup (shared s)) + length (added (monitor s)).

(** A configuration file that sets ['filename_template'] to [null], and
    the configuration [load_config] makes of it. *)
Definition null_template : gmap string json :=
  config (load_config "/home/u" "config.json"
            (LoadedFile (JDict [("filename_template", JNull)]))).

(** The configuration when there is no file. *)
Definition plain_config : gmap string json := default_config "/home/u".

(** [time.sleep] on the literals of the examples, which are numbers it
    accepts. *)
Definition sleeps (literal : string) : option exn := None.

(** A title of 65 characters and an error message of 125. *)
Definition long_title : string :=
  "A very long title, longer than the fifty characters that are kept".

Definition long_error : string :=
  "ERROR: unable to download video data: HTTP Error 403: Forbidden; "
  ++ "please report this issue on the tracker with the full output".

(** Three links accepted; the first downloaded under [long_title], the
    second failed with [long_error], the third in [extract_info]. *)
Definition shown_history : list action :=
  ([Tick (Pasted watch_link); Tick (Pasted short_link); Tick (Pasted playlist_a)]
   ++ attempt (Downloaded (Some long_title))
   ++ attempt (Failed (Error long_error))
   ++ start_download)%list.

(** The monitor's moves of one pass that accepts a link, up to line 172
    and to the end of the pass. *)
Definition to_the_put : list move := [Monitor; Monitor].

Definition first_accepted : list move :=
  [Monitor; Monitor; Monitor; Monitor; Monitor; Monitor; Monitor].

Definition later_accepted : list move :=
  [Monitor; Monitor; Monitor; Monitor; Monitor; Monitor; Monitor; Monitor].

(** The worker's moves from [get()] to [extract_info] or, when [ydl_opts]
    cannot be built, back to [get()]. *)
Definition take : list move := [Worker; Worker; Worker; Worker].

(** The moves to a state in the middle of things: the download of
    [watch_link] is running, [short_link] waits on the queue, and the
    monitor has put [playlist_a] on the queue and not logged it yet. *)
Definition busy_moves : list move :=
  (Reads (Pasted watch_link) :: first_accepted ++ take
   ++ Reads (Pasted short_link) :: later_accepted
   ++ Reads (Pasted playlist_a) :: to_the_put)%list.

Definition middle : program :=
  default (start true) (play sleeps plain_config busy_moves (start true)).

(** The moves to the state in which [watch_link] is in the ledger and not
    yet on the queue. *)
Definition between_add_and_put : program :=
  default (start true)
    (play sleeps plain_config [Reads (Pasted watch_link); Monitor] (start true)).

(** One link seen on the clipboard and taken by the worker. *)
Definition one_link : list move :=
  (Reads (Pasted short_link) :: first_accepted ++ take)%list.

(** * Properties *)

(** ** Strings *)

Lemma str_app_nil_l (s : string) : "" ++ s = s.
Proof. reflexivity. Qed.

Lemma str_app_cons (c : ascii) (s t : string) :
  String c s ++ t = String c (s ++ t).
Proof. reflexivity. Qed.

Lemma str_app_nil_r (s : string) : s ++ "" = s.
Proof.
  induction s as [|c s IH]; [reflexivity |].
  rewrite str_app_cons. now rewrite IH.
Qed.

Lemma str_app_assoc (s1 s2 s3 : string) : (s1 ++ s2) ++ s3 = s1 ++ (s2 ++ s3).
Proof.
  induction s1 as [|c s1 IH]; [reflexivity |].
  rewrite !str_app_cons. now rewrite IH.
Qed.

Lemma str_length_app (s1 s2 : string) :
  String.length (s1 ++ s2) = String.length s1 + String.length s2.
Proof.
  induction s1 as [|c s1 IH]; [reflexivity |].
  rewrite str_app_cons. simpl. now rewrite IH.
Qed.

Lemma slice_to_app (s1 s2 : string) :
  Str.slice_to (String.length s1) (s1 ++ s2) = s1.
Proof.
  unfold Str.slice_to. induction s1 as [|c s1 IH].
  - rewrite str_app_nil_l. now destruct s2.
  - rewrite str_app_cons. simpl. now rewrite IH.
Qed.

(** ** The matcher on examples *)

Example matcher_short_link :
  is_youtube_url (PyStr "check this out https://youtu.be/abc123XYZ9 nice")
  = Return (Some "https://youtu.be/abc123XYZ9").
Proof. vm_compute. reflexivity. Qed.

Example matcher_bare_watch :
  is_youtube_url (PyStr "see www.YouTube.com/watch?v=a_b-c&t=3")
  = Return (Some "https://www.YouTube.com/watch?v=a_b-c").
Proof. vm_compute. reflexivity. Qed.

Example matcher_latin1 :
  is_youtube_url (PyStr ("youtu.be/a" ++ String (ascii_of_nat 233) "!"))
  = Return (Some ("https://youtu.be/a" ++ String (ascii_of_nat 233) "")).
Proof. vm_compute. reflexivity. Qed.

Example matcher_no_id :
  is_youtube_url (PyStr "https://www.youtube.com/watch?v=") = Return None.
Proof. vm_compute. reflexivity. Qed.

Example matcher_order :
  is_youtube_url (PyStr "youtu.be/first then youtube.com/watch?v=second")
  = Return (Some "https://youtube.com/watch?v=second").
Proof. vm_compute. reflexivity. Qed.

(** ** The engine against the language of a pattern *)

Section Engine.
Context {A : Type}.
Implicit Types (k : string -> option A) (s w rest : string).

Lemma bt_star_sound cs s k a :
  bt_star cs s k = Some a ->
  exists w rest, s = w ++ rest /\ (w = "" \/ Matches (Plus cs) w) /\ k rest = Some a.
Proof.
  revert a. induction s as [|x s IH]; intros a; simpl.
  - intros Hk. exists "", "". auto.
  - destruct (set_member cs x) eqn:Hx.
    + destruct (bt_star cs s k) as [a'|] eqn:Hs.
      * intros [= ->]. destruct (IH a eq_refl) as (w & rest & -> & Hw & Hk).
        exists (String x w), rest. split; [reflexivity|]. split; [|exact Hk].
        right. destruct Hw as [-> | Hw]; [now apply M_plus_one | now apply M_plus_more].
      * intros Hk. exists "", (String x s). auto.
    + intros Hk. exists "", (String x s). auto.
Qed.

Lemma bt_star_some cs s k : is_Some (k s) -> is_Some (bt_star cs s k).
Proof.
  intros Hk. destruct s as [|x s]; simpl; [exact Hk|].
  destruct (set_member cs x); [|exact Hk].
  destruct (bt_star cs s k); [eauto | exact Hk].
Qed.

Lemma bt_plus_star cs s k :
  is_Some (bt (Plus cs) s k) -> is_Some (bt_star cs s k).
Proof.
  destruct s as [|x s]; simpl; [intros [? [=]]|].
  destruct (set_member cs x); [|intros [? [=]]].
  intros [a ->]. eauto.
Qed.

End Engine.

Lemma bt_sound {A} r : forall s (k : string -> option A) a,
  bt r s k = Some a ->
  exists w rest, s = w ++ rest /\ Matches r w /\ k rest = Some a.
Proof.
  induction r as [|c|r1 IH1 r2 IH2|r1 IH1|cs|r1 IH1]; intros s k a; simpl.
  - intros Hk. exists "", s. split; [reflexivity|]. split; [constructor | exact Hk].
  - destruct s as [|x s]; [intros [=]|].
    destruct (literal_ignore c x) eqn:Hx; [|intros [=]].
    intros Hk. exists (String x ""), s. split; [reflexivity|].
    split; [now constructor | exact Hk].
  - intros H. destruct (IH1 _ _ _ H) as (w1 & rest1 & -> & Hw1 & H2).
    destruct (IH2 _ _ _ H2) as (w2 & rest & -> & Hw2 & Hk).
    exists (w1 ++ w2), rest. rewrite str_app_assoc.
    split; [reflexivity|]. split; [now constructor | exact Hk].
  - destruct (bt r1 s k) as [a'|] eqn:H1.
    + intros [= ->]. destruct (IH1 _ _ _ H1) as (w & rest & -> & Hw & Hk).
      exists w, rest. split; [reflexivity|]. split; [now apply M_opt_some | exact Hk].
    + intros Hk. exists "", s. split; [reflexivity|]. split; [constructor | exact Hk].
  - destruct s as [|x s]; [intros [=]|].
    destruct (set_member cs x) eqn:Hx; [|intros [=]].
    intros H. destruct (bt_star_sound _ _ _ _ H) as (w & rest & -> & Hw & Hk).
    exists (String x w), rest. split; [reflexivity|]. split; [|exact Hk].
    destruct Hw as [-> | Hw]; [now apply M_plus_one | now apply M_plus_more].
  - intros H. destruct (IH1 _ _ _ H) as (w & rest & -> & Hw & Hk).
    exists w, rest. split; [reflexivity|]. split; [now constructor | exact Hk].
Qed.

Lemma bt_complete {A} r w :
  Matches r w ->
  forall rest (k : string -> option A), is_Some (k rest) -> is_Some (bt r (w ++ rest) k).
Proof.
  induction 1 as [|c x Hx|r1 r2 w1 w2 _ IH1 _ IH2|r|r w _ IH|cs x Hx
                  |cs x w Hx _ IH|r w _ IH]; intros rest k Hk.
  - exact Hk.
  - rewrite str_app_cons. simpl. now rewrite Hx.
  - rewrite str_app_assoc. simpl. apply IH1. now apply IH2.
  - rewrite str_app_nil_l. simpl. destruct (bt r rest k); [eauto | exact Hk].
  - simpl. destruct (IH rest k Hk) as [a ->]. eauto.
  - rewrite str_app_cons. simpl. rewrite Hx. now apply bt_star_some.
  - rewrite str_app_cons. simpl. rewrite Hx. apply bt_plus_star. now apply IH.
  - simpl. now apply IH.
Qed.

Lemma match_here_sound r pos s m :
  match_here r pos s = Some m ->
  exists rest, s = group0 m ++ rest /\ Matches r (group0 m) /\ m_start m = pos.
Proof.
  unfold match_here. destruct (bt r s Some) as [rest|] eqn:Hbt; [|intros [=]].
  intros [= <-]. simpl.
  destruct (bt_sound _ _ _ _ Hbt) as (w & rest' & -> & Hw & [= ->]).
  rewrite str_length_app, Nat.add_sub, slice_to_app. eauto.
Qed.

Lemma match_here_complete r pos w rest :
  Matches r w -> is_Some (match_here r pos (w ++ rest)).
Proof.
  intros Hw. unfold match_here.
  destruct (bt_complete r w Hw rest Some) as [x ->]; eauto.
Qed.

Lemma search_from_sound r : forall s pos m,
  search_from r pos s = Some m ->
  exists pre post, s = pre ++ group0 m ++ post /\ Matches r (group0 m).
Proof.
  induction s as [|x s IH]; intros pos m; simpl.
  - destruct (match_here r pos "") as [m'|] eqn:Hm; [|intros [=]].
    intros [= ->]. destruct (match_here_sound _ _ _ _ Hm) as (rest & -> & Hw & _).
    exists "", rest. auto.
  - destruct (match_here r pos (String x s)) as [m'|] eqn:Hm.
    + intros [= ->]. destruct (match_here_sound _ _ _ _ Hm) as (rest & -> & Hw & _).
      exists "", rest. auto.
    + intros H. destruct (IH _ _ H) as (pre & post & -> & Hw).
      exists (String x pre), post. auto.
Qed.

Lemma search_from_complete r w post : forall pre pos,
  Matches r w -> is_Some (search_from r pos (pre ++ w ++ post)).
Proof.
  intros pre pos Hw. revert pos. induction pre as [|x pre IH]; intros pos.
  - rewrite str_app_nil_l. destruct (match_here_complete r pos w post Hw) as [m Hm].
    destruct (w ++ post); simpl; rewrite Hm; eauto.
  - rewrite str_app_cons. simpl.
    destruct (match_here r pos (String x (pre ++ w ++ post))); [eauto | apply IH].
Qed.

Lemma search_sound r s m :
  search r s = Some m ->
  exists pre post, s = pre ++ group0 m ++ post /\ Matches r (group0 m).
Proof. apply search_from_sound. Qed.

Lemma search_complete r pre w post :
  Matches r w -> is_Some (search r (pre ++ w ++ post)).
Proof. apply search_from_complete. Qed.

(** ** The link matcher *)

Lemma first_pattern_str ps s : exists r, first_pattern ps (PyStr s) = Return r.
Proof.
  induction ps as [|p ps IH]; simpl; [eauto|].
  destruct (search p s); eauto.
Qed.

(** The loop returns the match of the first pattern of the list that
    matches somewhere. *)
Lemma first_pattern_earliest ps s : forall i p m,
  ps !! i = Some p ->
  search p s = Some m ->
  (forall j q, j < i -> ps !! j = Some q -> search q s = None) ->
  first_pattern ps (PyStr s) = Return (Some (extract_url m)).
Proof.
  induction ps as [|p0 ps IH]; intros i p m Hi Hm Hbefore; [discriminate|].
  destruct i as [|i]; simpl in *.
  - injection Hi as ->. now rewrite Hm.
  - rewrite (Hbefore 0 p0); [|lia|reflexivity].
    apply (IH i p m Hi Hm). intros j q Hj Hq. apply (Hbefore (S j) q); [lia | exact Hq].
Qed.

Lemma search_nonempty p s m :
  p ∈ youtube_patterns -> search p s = Some m -> truthy (PyStr s) = true.
Proof.
  intros Hp Hm. destruct s; [|reflexivity]. exfalso.
  unfold youtube_patterns in Hp.
  repeat (apply elem_of_cons in Hp as [-> | Hp]; [vm_compute in Hm; discriminate|]).
  now apply elem_of_nil in Hp.
Qed.

Lemma is_youtube_url_earliest s i p m :
  youtube_patterns !! i = Some p ->
  search p s = Some m ->
  (forall j q, j < i -> youtube_patterns !! j = Some q -> search q s = None) ->
  is_youtube_url (PyStr s) = Return (Some (extract_url m)).
Proof.
  intros Hi Hm Hbefore. unfold is_youtube_url.
  rewrite (search_nonempty p s m); [|now apply list_elem_of_lookup_2 in Hi|exact Hm].
  change (first_pattern youtube_patterns (PyStr s) = Return (Some (extract_url m))).
  now apply (first_pattern_earliest _ _ i p).
Qed.

(** C8. The matcher returns for every value it is given, never raising, and
    what it returns for the empty string and for a value that is not a
    string is [None]. *)
Theorem matcher_total (v : pyval) :
  exists r, is_youtube_url v = Return r /\
            (v = PyStr "" \/ (forall s, v <> PyStr s) -> r = None).
Proof.
  unfold is_youtube_url.
  destruct v as [|b|z|s|b|l];
    try (exists None; split; [|reflexivity];
         cbn [isinstance_str negb]; now rewrite orb_true_r).
  destruct s as [|c s].
  - exists None. split; reflexivity.
  - change (exists r, first_pattern youtube_patterns (PyStr (String c s)) = Return r /\
                      (PyStr (String c s) = PyStr "" \/
                       (forall s0, PyStr (String c s) <> PyStr s0) -> r = None)).
    destruct (first_pattern_str youtube_patterns (String c s)) as [r Hr].
    exists r. split; [exact Hr|].
    intros [[=] | Hns]. now destruct (Hns (String c s)).
Qed.

Lemma matcher_total_witness :
  is_youtube_url (PyStr "") = Return None /\ is_youtube_url (PyInt 7) = Return None.
Proof.
  split.
  - destruct (matcher_total (PyStr "")) as (r & Hr & Hnone).
    rewrite Hr, Hnone; [reflexivity | left; reflexivity].
  - destruct (matcher_total (PyInt 7)) as (r & Hr & Hnone).
    rewrite Hr, Hnone; [reflexivity | right; intros s; discriminate].
Defined.

(** The link made of a match, lines 141-144. *)
Lemma extract_url_cases m :
  extract_url m = if Str.startswith "http" (group0 m) then group0 m
                  else "https://" ++ group0 m.
Proof. unfold extract_url. now destruct (Str.startswith "http" (group0 m)). Qed.

(** No occurrence, no match. *)
Lemma search_none p text :
  (forall pre w post, text = pre ++ w ++ post -> ~ Matches p w) ->
  search p text = None.
Proof.
  intros Hno. destruct (search p text) as [m|] eqn:Hm; [|reflexivity].
  destruct (search_sound _ _ _ Hm) as (pre & post & Hs & Hw).
  now destruct (Hno pre (group0 m) post).
Qed.

(** No match, no occurrence. *)
Lemma search_none_inv p text :
  search p text = None ->
  forall pre w post, text = pre ++ w ++ post -> ~ Matches p w.
Proof.
  intros Hnone pre w post -> Hw.
  destruct (search_complete p pre w post Hw) as [m Hm]. congruence.
Qed.

(** C10. The four shapes are tried in the order watch page, short link,
    shorts, playlist, and the link returned comes from the first shape of
    that list that occurs anywhere in the input: it is an occurrence of
    that shape in the text, with ["https://"] in front unless it starts
    with ["http"]. So an input that contains a link of the watch-page shape
    gets a link of that shape back, whatever else (a short link, say)
    stands before it. *)
Theorem pattern_order_precedence (text pre w post : string) (i : nat) (p : regex) :
  youtube_patterns !! i = Some p ->
  text = pre ++ w ++ post ->
  Matches p w ->
  (forall j q pre' w' post',
      j < i -> youtube_patterns !! j = Some q ->
      text = pre' ++ w' ++ post' -> ~ Matches q w') ->
  youtube_patterns = [watch_pattern; short_pattern; shorts_pattern; playlist_pattern] /\
  exists pre0 w0 post0,
    text = pre0 ++ w0 ++ post0 /\ Matches p w0 /\
    is_youtube_url (PyStr text)
    = Return (Some (if Str.startswith "http" w0 then w0 else "https://" ++ w0)).
Proof.
  intros Hi -> Hw Hbefore. split; [reflexivity|].
  destruct (search_complete p pre w post Hw) as [m Hm].
  destruct (search_sound _ _ _ Hm) as (pre0 & post0 & Hs & Hw0).
  exists pre0, (group0 m), post0. split; [exact Hs|]. split; [exact Hw0|].
  rewrite <- extract_url_cases.
  apply (is_youtube_url_earliest _ i p m Hi Hm).
  intros j q Hj Hq. apply search_none. intros pre' w' post'.
  now apply (Hbefore j q).
Qed.

Lemma pattern_order_precedence_witness :
  (exists pre0 w0 post0,
      "youtu.be/first then youtube.com/watch?v=second" = pre0 ++ w0 ++ post0 /\
      Matches watch_pattern w0 /\
      is_youtube_url (PyStr "youtu.be/first then youtube.com/watch?v=second")
      = Return (Some (if Str.startswith "http" w0 then w0 else "https://" ++ w0))) /\
  (exists pre0 w0 post0,
      "youtube.com/shorts/a then youtu.be/b" = pre0 ++ w0 ++ post0 /\
      Matches short_pattern w0 /\
      is_youtube_url (PyStr "youtube.com/shorts/a then youtu.be/b")
      = Return (Some (if Str.startswith "http" w0 then w0 else "https://" ++ w0))).
Proof.
  split.
  - destruct (pattern_order_precedence
                "youtu.be/first then youtube.com/watch?v=second"
                "youtu.be/first then " "youtube.com/watch?v=second" "" 0 watch_pattern)
      as (_ & H).
    + reflexivity.
    + reflexivity.
    + apply (M_cat _ _ "" "youtube.com/watch?v=second"); [apply M_opt_none|].
      apply (M_cat _ _ "" "youtube.com/watch?v=second"); [apply M_opt_none|].
      apply M_group.
      apply (M_cat _ _ "youtube.com/watch?v=" "second").
      * repeat (apply (M_cat _ _ (String _ "") _); [now apply M_lit|]).
        now apply M_lit.
      * repeat first [now apply M_plus_one | apply M_plus_more; [reflexivity|]].
    + intros j q pre' w' post' Hj. lia.
    + exact H.
  - destruct (pattern_order_precedence
                "youtube.com/shorts/a then youtu.be/b"
                "youtube.com/shorts/a then " "youtu.be/b" "" 1 short_pattern)
      as (_ & H).
    + reflexivity.
    + reflexivity.
    + apply (M_cat _ _ "" "youtu.be/b"); [apply M_opt_none|].
      apply (M_cat _ _ "" "youtu.be/b"); [apply M_opt_none|].
      apply M_group.
      apply (M_cat _ _ "youtu.be/" "b").
      * repeat (apply (M_cat _ _ (String _ "") _); [now apply M_lit|]).
        now apply M_lit.
      * now apply M_plus_one.
    + intros j q pre' w' post' Hj Hq. destruct j as [|j]; [|lia].
      injection Hq as <-. apply search_none_inv. vm_compute. reflexivity.
    + exact H.
Defined.

(** *** The scheme *)

Lemma literal_ignore_not_h c x :
  literal_ignore c x = true -> unicode_tolower c <> "h"%char -> x <> "h"%char.
Proof.
  unfold literal_ignore. intros H%Ascii.eqb_eq Hc ->. apply Hc. now rewrite <- H.
Qed.

Lemma Matches_lit_inv c w :
  Matches (Lit c) w -> exists x, w = String x "" /\ literal_ignore c x = true.
Proof. inversion 1; subst; eauto. Qed.

Lemma Matches_cat_inv r1 r2 w :
  Matches (Cat r1 r2) w -> exists w1 w2, w = w1 ++ w2 /\ Matches r1 w1 /\ Matches r2 w2.
Proof. inversion 1; subst; eauto. Qed.

Lemma Matches_opt_inv r w : Matches (Opt r) w -> w = "" \/ Matches r w.
Proof. inversion 1; subst; auto. Qed.

Lemma Matches_group_inv r w : Matches (Group r) w -> Matches r w.
Proof. now inversion 1. Qed.

Lemma lits_first c s w :
  Matches (lits (String c s)) w ->
  exists x w', w = String x w' /\ literal_ignore c x = true.
Proof.
  simpl. destruct s as [|c' s].
  - intros (x & -> & Hx)%Matches_lit_inv. eauto.
  - intros (w1 & w2 & -> & (x & -> & Hx)%Matches_lit_inv & _)%Matches_cat_inv. eauto.
Qed.

Lemma startswith_http_first x w : x <> "h"%char -> Str.startswith "http" (String x w) = false.
Proof.
  intros Hx. unfold Str.startswith.
  change (String.prefix "http" (String x w))
    with (if ascii_dec "h" x then String.prefix "ttp" w else false).
  destruct (ascii_dec "h" x) as [<-|_]; [contradiction | reflexivity].
Qed.

(** A match in which the scheme group took no part gets ["https://"] in
    front. *)
Lemma scheme_added_when_absent body c body' w pos :
  body = String c body' -> unicode_tolower c <> "h"%char ->
  Matches (Cat www (Group (Cat (lits body) (Plus word_dash)))) w ->
  extract_url {| m_start := pos; group0 := w |} = "https://" ++ w.
Proof.
  intros -> Hc Hw. unfold extract_url. simpl group0.
  assert (Hfirst : exists x w', w = String x w' /\ x <> "h"%char).
  { apply Matches_cat_inv in Hw as (w1 & w2 & -> & Hwww & Hbody).
    apply Matches_group_inv, Matches_cat_inv in Hbody as (v1 & v2 & -> & Hlits & _).
    destruct (lits_first _ _ _ Hlits) as (x & v' & -> & Hx).
    apply Matches_opt_inv in Hwww as [-> | Hwww].
    - exists x, (v' ++ v2). split; [reflexivity|].
      now apply (literal_ignore_not_h c).
    - apply Matches_group_inv in Hwww.
      destruct (lits_first _ _ _ Hwww) as (y & u' & -> & Hy).
      exists y, (u' ++ String x v' ++ v2). split; [reflexivity|].
      apply (literal_ignore_not_h "w"); [exact Hy | discriminate]. }
  destruct Hfirst as (x & w' & -> & Hx).
  now rewrite startswith_http_first.
Qed.

(** A match that begins with a lower-case ["http"] is returned as it is. *)
Lemma lower_scheme_kept w pos :
  extract_url {| m_start := pos; group0 := "http" ++ w |} = "http" ++ w.
Proof.
  unfold extract_url, Str.startswith. simpl group0.
  assert (H : String.prefix "http" ("http" ++ w) = true)
    by (apply prefix_correct; apply (slice_to_app "http" w)).
  now rewrite H.
Qed.

(** C7 fails on the code: a scheme written in capitals is matched, since
    the search ignores case, but line 142 looks for a lower-case ["http"],
    so a second scheme is put in front of the first. *)
Theorem upper_case_scheme_doubled :
  group0 <$> search short_pattern "HTTPS://youtu.be/abc123XYZ9"
  = Some "HTTPS://youtu.be/abc123XYZ9" /\
  is_youtube_url (PyStr "HTTPS://youtu.be/abc123XYZ9")
  = Return (Some "https://HTTPS://youtu.be/abc123XYZ9").
Proof. split; vm_compute; reflexivity. Qed.

(** ** Effects of the operations on the fields *)

Lemma started_app l1 l2 : started (l1 ++ l2)%list = (started l1 ++ started l2)%list.
Proof. apply omap_app. Qed.

Lemma enqueued_app l1 l2 : enqueued (l1 ++ l2)%list = (enqueued l1 ++ enqueued l2)%list.
Proof. apply omap_app. Qed.

(** A notification touches nothing but the log, and is neither an
    acceptance nor a start. *)
Lemma show_notification_frame n d :
  let d' := show_notification n d in
  notifications d' = notifications d /\ downloaded_urls d' = downloaded_urls d /\
  last_clipboard d' = last_clipboard d /\ download_queue d' = download_queue d /\
  unfinished_tasks d' = unfinished_tasks d /\ is_downloading d' = is_downloading d /\
  current_download d' = current_download d /\ worker d' = worker d /\
  started (log d') = started (log d) /\ enqueued (log d') = enqueued (log d).
Proof.
  unfold show_notification. destruct (negb (notifications d)); simpl;
    rewrite ?started_app, ?enqueued_app; simpl; rewrite ?List.app_nil_r; auto 10.
Qed.

Ltac frame_notification :=
  repeat match goal with
    | |- context [show_notification ?n ?d] =>
        let H := fresh "Hn" in
        pose proof (show_notification_frame n d) as H; cbv zeta in H;
        destruct H as (? & ? & ? & ? & ? & ? & ? & ? & ? & ?);
        generalize dependent (show_notification n d); intros
    end.

(** What [add_to_queue] leaves alone, and its two cases. *)
Lemma add_to_queue_effect url d :
  let d' := add_to_queue url d in
  (notifications d' = notifications d /\ last_clipboard d' = last_clipboard d /\
   is_downloading d' = is_downloading d /\ current_download d' = current_download d /\
   worker d' = worker d /\ started (log d') = started (log d)) /\
  ((url ∈ downloaded_urls d /\
    downloaded_urls d' = downloaded_urls d /\ download_queue d' = download_queue d /\
    unfinished_tasks d' = unfinished_tasks d /\ enqueued (log d') = enqueued (log d)) \/
   ((url ∉ downloaded_urls d) /\
    downloaded_urls d' = ({[url]} ∪ downloaded_urls d) /\
    download_queue d' = (download_queue d ++ [Some url])%list /\
    unfinished_tasks d' = S (unfinished_tasks d) /\
    enqueued (log d') = (enqueued (log d) ++ [url])%list)).
Proof.
  unfold add_to_queue. case_bool_decide as Hin.
  - simpl. rewrite started_app, enqueued_app. simpl. rewrite !List.app_nil_r. auto 10.
  - cbv zeta. destruct (_ && _); frame_notification; simpl in *;
      rewrite ?started_app, ?enqueued_app in *; simpl in *; rewrite ?List.app_nil_r in *;
      (split; [intuition congruence | right; intuition congruence]).
Qed.

(** A pass of the monitor loop either accepts one new link or leaves the
    ledger and the queue as they are; it never touches the worker's side. *)
Lemma monitor_tick_effect p d :
  let d' := monitor_tick p d in
  (notifications d' = notifications d /\
   is_downloading d' = is_downloading d /\ current_download d' = current_download d /\
   worker d' = worker d /\ started (log d') = started (log d)) /\
  ((downloaded_urls d' = downloaded_urls d /\ download_queue d' = download_queue d /\
    unfinished_tasks d' = unfinished_tasks d /\ enqueued (log d') = enqueued (log d)) \/
   (exists url, (url ∉ downloaded_urls d) /\
    downloaded_urls d' = ({[url]} ∪ downloaded_urls d) /\
    download_queue d' = (download_queue d ++ [Some url])%list /\
    unfinished_tasks d' = S (unfinished_tasks d) /\
    enqueued (log d') = (enqueued (log d) ++ [url])%list)).
Proof.
  unfold monitor_tick. destruct p as [c|e].
  - destruct (negb (c =? last_clipboard d)%string); [|cbv zeta; auto 10].
    destruct (is_youtube_url (PyStr c)) as [[url|]|e];
      [| cbv zeta; simpl; auto 10
       | cbv zeta; simpl; rewrite started_app, enqueued_app; simpl;
         rewrite !List.app_nil_r; auto 10].
    destruct (truthy (PyStr url)); [|cbv zeta; simpl; auto 10].
    set (d0 := emit (Log_detected url) (set_last_clipboard c d)).
    assert (Hs : started (log d0) = started (log d))
      by (simpl; rewrite started_app; simpl; now rewrite List.app_nil_r).
    assert (He : enqueued (log d0) = enqueued (log d))
      by (simpl; rewrite enqueued_app; simpl; now rewrite List.app_nil_r).
    cbv zeta.
    destruct (add_to_queue_effect url d0) as
      ((? & ? & ? & ? & ? & ?) & [(? & ? & ? & ? & ?) | (? & ? & ? & ? & ?)]).
    + split; [intuition congruence|]. left. intuition congruence.
    + split; [intuition congruence|]. right. exists url. intuition congruence.
  - cbv zeta. simpl. rewrite started_app, enqueued_app. simpl.
    rewrite !List.app_nil_r. auto 10.
Qed.

(** The worker's moves, program point by program point. *)
Lemma worker_step_effect d d' :
  worker_step d = Some d' ->
  (notifications d' = notifications d /\ downloaded_urls d' = downloaded_urls d /\
   last_clipboard d' = last_clipboard d /\ enqueued (log d') = enqueued (log d)) /\
  match worker d with
  | WGet =>
      exists item, download_queue d = item :: download_queue d' /\
                   worker d' = WPopped item /\
                   is_downloading d' = is_downloading d /\
                   current_download d' = current_download d /\
                   log d' = log d
  | WPopped None =>
      worker d' = WDead /\ download_queue d' = download_queue d /\
      is_downloading d' = is_downloading d /\
      current_download d' = current_download d /\ log d' = log d
  | WPopped (Some url) =>
      worker d' = WFlagged url /\ download_queue d' = download_queue d /\
      is_downloading d' = true /\
      current_download d' = current_download d /\ log d' = log d
  | WFlagged url =>
      worker d' = WEntered url /\ download_queue d' = download_queue d /\
      is_downloading d' = is_downloading d /\
      current_download d' = Some (display_name url) /\ log d' = log d
  | WEntered url =>
      worker d' = WRunning url /\ download_queue d' = download_queue d /\
      is_downloading d' = is_downloading d /\
      current_download d' = current_download d /\
      started (log d') = (started (log d) ++ [url])%list
  | WFinally url escapes =>
      worker d' = WUnflagged url escapes /\ download_queue d' = download_queue d /\
      is_downloading d' = false /\
      current_download d' = current_download d /\ log d' = log d
  | WUnflagged url escapes =>
      worker d' = (if escapes then WDead else WTaskDone) /\
      download_queue d' = download_queue d /\
      is_downloading d' = is_downloading d /\
      current_download d' = None /\ log d' = log d
  | WTaskDone =>
      worker d' = WGet /\ download_queue d' = download_queue d /\
      is_downloading d' = is_downloading d /\
      current_download d' = current_download d /\
      started (log d') = started (log d)
  | WRunning _ | WDead => False
  end.
Proof.
  unfold worker_step.
  destruct (worker d) as [|[url|]|url|url|url|url esc|url esc| |];
    try discriminate;
    try (intros [= <-]; simpl; auto 10; fail).
  - destruct (download_queue d) as [|item rest] eqn:Hq; [discriminate|].
    intros [= <-]. simpl. split; [auto|]. exists item. auto.
  - intros [= <-]. cbv zeta. simpl. frame_notification. simpl in *.
    rewrite started_app, enqueued_app in *. simpl in *. rewrite List.app_nil_r in *.
    split; [intuition congruence|]. intuition congruence.
  - destruct (unfinished_tasks d); intros [= <-]; simpl;
      rewrite ?started_app, ?enqueued_app; simpl; rewrite ?List.app_nil_r; auto 10.
Qed.

(** The return of the download operation is recorded and nothing else. *)
Lemma download_returns_effect o d d' :
  download_returns o d = Some d' ->
  exists url, worker d = WRunning url /\
    worker d' = WFinally url (match o with Aborted => true | _ => false end) /\
    notifications d' = notifications d /\ downloaded_urls d' = downloaded_urls d /\
    last_clipboard d' = last_clipboard d /\ download_queue d' = download_queue d /\
    unfinished_tasks d' = unfinished_tasks d /\
    is_downloading d' = is_downloading d /\ current_download d' = current_download d /\
    started (log d') = started (log d) /\ enqueued (log d') = enqueued (log d).
Proof.
  unfold download_returns. destruct (worker d) as [| | | |url| | | |]; try discriminate.
  intros H. exists url. split; [reflexivity|].
  destruct o as [title|e|]; injection H as <-; cbv zeta; simpl;
    frame_notification; simpl in *;
    rewrite ?started_app, ?enqueued_app in *; simpl in *;
    rewrite ?List.app_nil_r in *; intuition congruence.
Qed.

(** ** Runs and invariants *)

Lemma run_app tr1 tr2 d :
  run (tr1 ++ tr2)%list d = match run tr1 d with Some d' => run tr2 d' | None => None end.
Proof.
  revert d. induction tr1 as [|a tr1 IH]; intros d; simpl; [reflexivity|].
  destruct (exec a d); [apply IH | reflexivity].
Qed.

Lemma run_preserves (P : downloader -> Prop) :
  (forall a d d', P d -> exec a d = Some d' -> P d') ->
  forall tr d d', P d -> run tr d = Some d' -> P d'.
Proof.
  intros Hstep. induction tr as [|a tr IH]; intros d d' HP; simpl.
  - now intros [= <-].
  - destruct (exec a d) as [d1|] eqn:Ha; [|discriminate].
    apply IH. now apply (Hstep a d).
Qed.

Lemma flags_ok_step a d d' : flags_ok d -> exec a d = Some d' -> flags_ok d'.
Proof.
  unfold flags_ok. intros [Hi Hc] Ha. destruct a as [p| |o]; simpl in Ha.
  - injection Ha as <-.
    destruct (monitor_tick_effect p d) as ((_ & -> & -> & -> & _) & _). now split.
  - destruct (worker_step_effect _ _ Ha) as (_ & Hw).
    destruct (worker d) as [|[url|]|url|url|url|url esc|url esc| |]; simpl in *;
      try contradiction;
      try (destruct Hw as (-> & _ & -> & -> & _); simpl; auto; fail).
    + destruct Hw as (item & _ & -> & -> & -> & _). auto.
    + destruct Hw as (-> & _ & -> & -> & _). destruct esc; auto.
  - destruct (download_returns_effect _ _ _ Ha)
      as (url & Hw & -> & _ & _ & _ & _ & _ & -> & -> & _).
    rewrite Hw in Hi, Hc. now split.
Qed.

Lemma fifo_ok_step a d d' : fifo_ok d -> exec a d = Some d' -> fifo_ok d'.
Proof.
  unfold fifo_ok. intros Hd Ha. destruct a as [p| |o]; simpl in Ha.
  - injection Ha as <-.
    destruct (monitor_tick_effect p d) as
      ((_ & _ & _ & -> & ->) & [(_ & -> & _ & ->) | (url & _ & _ & -> & _ & ->)]);
      [exact Hd|].
    rewrite fmap_app, Hd. simpl. now rewrite <- !List.app_assoc.
  - destruct (worker_step_effect _ _ Ha) as ((_ & _ & _ & ->) & Hw).
    destruct (worker d) as [|[url|]|url|url|url|url esc|url esc| |]; simpl in *;
      try contradiction.
    + destruct Hw as (item & Hq & -> & _ & _ & ->). now rewrite Hd, Hq.
    + destruct Hw as (-> & -> & _ & _ & ->). exact Hd.
    + exfalso. assert (Hin : None ∈ Some <$> enqueued (log d))
        by (rewrite Hd; apply elem_of_app; right; left).
      apply list_elem_of_fmap in Hin as (? & [=] & _).
    + destruct Hw as (-> & -> & _ & _ & ->). exact Hd.
    + destruct Hw as (-> & -> & _ & _ & ->). rewrite Hd. simpl.
      now rewrite fmap_app, <- List.app_assoc.
    + destruct Hw as (-> & -> & _ & _ & ->). exact Hd.
    + destruct Hw as (-> & -> & _ & _ & ->). now destruct esc.
    + destruct Hw as (-> & -> & _ & _ & ->). exact Hd.
  - destruct (download_returns_effect _ _ _ Ha)
      as (url & Hw & -> & _ & _ & _ & -> & _ & _ & _ & -> & ->).
    now rewrite Hw in Hd.
Qed.

Lemma pending_ok_step a d d' : pending_ok d -> exec a d = Some d' -> pending_ok d'.
Proof.
  unfold pending_ok. intros [Hnd Hin] Ha. destruct a as [p| |o]; simpl in Ha.
  - injection Ha as <-.
    destruct (monitor_tick_effect p d) as
      ((_ & _ & _ & -> & _) & [(-> & -> & _) | (url & Hfresh & -> & -> & _)]);
      [now split|].
    rewrite List.app_assoc. split.
    + apply NoDup_app. split; [exact Hnd|]. split; [|apply NoDup_singleton].
      intros x Hx ->%list_elem_of_singleton.
      destruct (Hin _ Hx) as (u & [= <-] & Hu). contradiction.
    + intros x [Hx | ->%list_elem_of_singleton]%elem_of_app.
      * destruct (Hin _ Hx) as (u & -> & Hu). exists u. split; [reflexivity|].
        apply elem_of_union. now right.
      * exists url. split; [reflexivity|].
        apply elem_of_union. left. now apply elem_of_singleton.
  - destruct (worker_step_effect _ _ Ha) as ((_ & -> & _) & Hw).
    destruct (worker d) as [|[url|]|url|url|url|url esc|url esc| |]; simpl in *;
      try contradiction;
      try (destruct Hw as (-> & -> & _); now split).
    + destruct Hw as (item & Hq & -> & _). rewrite Hq in *. now split.
    + destruct Hw as (-> & -> & _). simpl. apply NoDup_cons in Hnd as [_ Hnd].
      split; [exact Hnd|]. intros x Hx. apply Hin. now right.
    + destruct Hw as (-> & -> & _). apply NoDup_cons in Hnd as [_ Hnd].
      assert (Hheld : held (if esc then WDead else WTaskDone) = []) by now destruct esc.
      rewrite Hheld. split; [exact Hnd|]. intros x Hx. apply Hin. now right.
  - destruct (download_returns_effect _ _ _ Ha)
      as (url & Hw & -> & _ & -> & _ & -> & _).
    rewrite Hw in *. now split.
Qed.

Lemma init_ok notify :
  flags_ok (init notify) /\ fifo_ok (init notify) /\ pending_ok (init notify).
Proof.
  split; [now split|]. split; [reflexivity|]. split; [constructor|].
  intros x Hx. now apply elem_of_nil in Hx.
Qed.

Lemma reachable_ok d : reachable d -> flags_ok d /\ fifo_ok d /\ pending_ok d.
Proof.
  intros (notify & tr & Hrun). destruct (init_ok notify) as (Hf & Hq & Hp).
  split; [|split].
  - exact (run_preserves flags_ok flags_ok_step tr _ _ Hf Hrun).
  - exact (run_preserves fifo_ok fifo_ok_step tr _ _ Hq Hrun).
  - exact (run_preserves pending_ok pending_ok_step tr _ _ Hp Hrun).
Qed.

Lemma reachable_run tr d d' : reachable d -> run tr d = Some d' -> reachable d'.
Proof.
  intros (notify & tr0 & H0) Hrun. exists notify, (tr0 ++ tr)%list.
  now rewrite run_app, H0.
Qed.

(** ** The ledger and the queue *)

Lemma ledger_grows_step a d d' :
  exec a d = Some d' -> downloaded_urls d ⊆ downloaded_urls d'.
Proof.
  destruct a as [p| |o]; simpl; intros Ha.
  - injection Ha as <-.
    destruct (monitor_tick_effect p d) as (_ & [(-> & _) | (url & _ & -> & _)]);
      [reflexivity | apply union_subseteq_r].
  - now destruct (worker_step_effect _ _ Ha) as ((_ & -> & _) & _).
  - now destruct (download_returns_effect _ _ _ Ha) as (url & _ & _ & _ & -> & _).
Qed.

Lemma ledger_grows tr d d' :
  run tr d = Some d' -> downloaded_urls d ⊆ downloaded_urls d'.
Proof.
  apply (run_preserves (fun x => downloaded_urls d ⊆ downloaded_urls x));
    [|reflexivity].
  intros a d1 d2 H1 Ha. etrans; [exact H1 | now apply (ledger_grows_step a)].
Qed.

(** C1. Enqueueing a link that is already in the ledger changes neither the
    queue nor the ledger; nothing the program does takes a link out of the
    ledger, whatever the outcomes of the downloads; and enqueueing a new
    link twice in a row adds it once to the ledger and once to the queue. *)
Theorem dedup_enqueue_idempotent (d : downloader) (L : string) :
  (L ∈ downloaded_urls d ->
   qsize (add_to_queue L d) = qsize d /\
   size (downloaded_urls (add_to_queue L d)) = size (downloaded_urls d) /\
   download_queue (add_to_queue L d) = download_queue d /\
   downloaded_urls (add_to_queue L d) = downloaded_urls d) /\
  (forall tr d', run tr d = Some d' -> L ∈ downloaded_urls d -> L ∈ downloaded_urls d') /\
  (L ∉ downloaded_urls d ->
   size (downloaded_urls (add_to_queue L (add_to_queue L d)))
   = S (size (downloaded_urls d)) /\
   qsize (add_to_queue L (add_to_queue L d)) = S (qsize d)).
Proof.
  split; [|split].
  - intros HL. destruct (add_to_queue_effect L d) as (_ & [(_ & Hl & Hq & _) | (Hn & _)]);
      [|contradiction].
    unfold qsize. now rewrite Hl, Hq.
  - intros tr d' Hrun HL. now apply (ledger_grows tr d d' Hrun).
  - intros HL.
    destruct (add_to_queue_effect L d) as (_ & [(Hin & _) | (_ & Hl & Hq & _)]);
      [contradiction|].
    destruct (add_to_queue_effect L (add_to_queue L d))
      as (_ & [(_ & Hl2 & Hq2 & _) | (Hn & _)]).
    + unfold qsize. rewrite Hl2, Hq2, Hl, Hq. split.
      * rewrite size_union by (apply disjoint_singleton_l; exact HL).
        now rewrite size_singleton.
      * rewrite length_app. simpl. lia.
    + exfalso. apply Hn. rewrite Hl. apply elem_of_union. left.
      now apply elem_of_singleton.
Qed.

Lemma dedup_enqueue_idempotent_witness :
  (qsize (add_to_queue watch_link detected) = qsize detected /\
   size (downloaded_urls (add_to_queue watch_link detected))
   = size (downloaded_urls detected)) /\
  (size (downloaded_urls (add_to_queue watch_link (add_to_queue watch_link (init true))))
   = 1 /\
   qsize (add_to_queue watch_link (add_to_queue watch_link (init true))) = 1).
Proof.
  split.
  - destruct (dedup_enqueue_idempotent detected watch_link) as (Hseen & _ & _).
    destruct Hseen as (Hq & Hs & _); [|auto].
    apply (bool_decide_unpack _). vm_compute. exact I.
  - apply (dedup_enqueue_idempotent (init true) watch_link).
    simpl. apply not_elem_of_empty.
Defined.

(** C9. A pass of the monitor loop that reads what it read last leaves the
    whole state as it is: the ledger, the queue, the last-seen content, the
    current-download fields, and the log, to which nothing is written. *)
Theorem unchanged_tick_noop (d : downloader) (clipboard_content : string) :
  clipboard_content = last_clipboard d ->
  monitor_tick (Pasted clipboard_content) d = d /\
  exec (Tick (Pasted clipboard_content)) d = Some d.
Proof.
  intros ->. unfold exec, monitor_tick. now rewrite String.eqb_refl.
Qed.

Lemma unchanged_tick_noop_witness :
  monitor_tick (Pasted watch_link) detected = detected /\
  exec (Tick (Pasted watch_link)) detected = Some detected.
Proof. apply (unchanged_tick_noop detected watch_link). vm_compute. reflexivity. Defined.

(** ** The worker *)




(** Where the worker can move. *)
Lemma worker_step_enabled d :
  match worker d with
  | WGet => download_queue d <> []
  | WRunning _ | WDead => False
  | _ => True
  end ->
  is_Some (worker_step d).
Proof.
  unfold worker_step.
  destruct (worker d) as [|[url|]|url|url|url|url esc|url esc| |];
    try (intros; eauto; fail); try contradiction.
  - destruct (download_queue d); [intros H; now destruct H | eauto].
  - destruct (unfinished_tasks d); eauto.
Qed.

Lemma download_returns_enabled o d url :
  worker d = WRunning url -> is_Some (download_returns o d).
Proof. unfold download_returns. intros ->. destruct o; eauto. Qed.




Lemma released_step a d d' : released d -> exec a d = Some d' -> released d'.
Proof.
  unfold released. intros Hd Ha. destruct a as [p| |o]; simpl in Ha.
  - injection Ha as <-.
    destruct (monitor_tick_effect p d) as ((_ & -> & -> & -> & _) & _). exact Hd.
  - destruct (worker_step_effect _ _ Ha) as (_ & Hw).
    destruct (worker d) as [|[url|]|url|url|url|url esc|url esc| |]; simpl in *;
      try contradiction;
      try (destruct Hw as (-> & _ & Hi & Hc & _); simpl; try discriminate;
           rewrite ?Hi, ?Hc; auto; fail).
    + destruct Hw as (item & _ & -> & -> & -> & _). simpl. auto.
    + destruct Hw as (-> & _ & -> & -> & _). destruct esc; simpl; auto.
  - destruct (download_returns_effect _ _ _ Ha) as (url & _ & -> & _). discriminate.
Qed.

(** Once the download operation has been called, the [finally] releases:
    however [extract_info] comes back (with a result, with an error, or with
    an exception that nothing catches), the worker's next two moves, the
    assignments of lines 273-274, empty the current-download fields, without
    anything having been taken from the queue; and from then on the fields
    are empty at every moment at which the worker is outside
    [_download_video]. This is the worker of [worker_step], whose
    [ydl_opts] can be built. *)
Lemma finally_releases (d : downloader) (url : string) (o : outcome) :
  worker d = WRunning url ->
  (exists d',
      run [Returns o; Work; Work] d = Some d' /\
      download_queue d' = download_queue d /\
      is_downloading d' = false /\ current_download d' = None /\
      worker d' = match o with Aborted => WDead | _ => WTaskDone end) /\
  (forall tr d',
      run (Returns o :: tr) d = Some d' ->
      idle (worker d') = true ->
      is_downloading d' = false /\ current_download d' = None).
Proof.
  intros Hw. split.
  - destruct d as [n led lc qu uf isd cur w lg]. simpl in Hw. subst w.
    destruct n, o as [title|e|]; eexists;
      (split; [reflexivity|]); simpl; auto 10.
  - intros tr d'. simpl. destruct (download_returns o d) as [d1|] eqn:H1; [|discriminate].
    intros Hrun Hidle.
    assert (Hrel : released d') by
      (apply (run_preserves released released_step tr d1 d'); [|exact Hrun];
       unfold released;
       destruct (download_returns_effect _ _ _ H1) as (u & _ & -> & _); discriminate).
    unfold released in Hrel. destruct (worker d'); try discriminate; auto.
Qed.

(** C4, as the claim has it, fails: while the worker executes the download
    of a link, [current_download] is not that link but a display string, the
    first fifty characters and three dots; two different links can give the
    same one. *)
Lemma current_download_is_not_the_link :
  (exists d, download_of watch_link = Some d /\
             in_flight (worker d) = Some watch_link /\
             current_download d = Some "https://www.youtube.com/watch?v=abc123XYZ9..." /\
             current_download d <> Some watch_link) /\
  (exists da db, download_of playlist_a = Some da /\ download_of playlist_b = Some db /\
                 in_flight (worker da) = Some playlist_a /\
                 in_flight (worker db) = Some playlist_b /\
                 playlist_a <> playlist_b /\
                 current_download da = current_download db).
Proof.
  split.
  - eexists. split; [vm_compute; reflexivity|].
    split; [vm_compute; reflexivity|]. split; [vm_compute; reflexivity|].
    vm_compute. discriminate.
  - do 2 eexists. split; [vm_compute; reflexivity|].
    split; [vm_compute; reflexivity|]. split; [vm_compute; reflexivity|].
    split; [vm_compute; reflexivity|].
    split; [vm_compute; discriminate | vm_compute; reflexivity].
Qed.

(** ** One item after another *)




(** * Further properties *)

(** ** The search: where it matches and how far *)

Lemma match_here_spec r pos s m :
  match_here r pos s = Some m ->
  exists rest, s = group0 m ++ rest /\ Matches r (group0 m) /\ m_start m = pos /\
               bt r s Some = Some rest.
Proof.
  unfold match_here. destruct (bt r s Some) as [rest|] eqn:Hbt; [|intros [=]].
  intros [= <-]. simpl.
  destruct (bt_sound _ _ _ _ Hbt) as (w & rest' & -> & Hw & [= ->]).
  rewrite str_length_app, Nat.add_sub, slice_to_app. eauto.
Qed.

(** What [re.search] returns: the match, what stands before and after it,
    and that no match of the pattern starts further left. *)
Lemma search_from_spec r : forall s pos m,
  search_from r pos s = Some m ->
  exists pre rest,
    s = pre ++ group0 m ++ rest /\
    m_start m = pos + String.length pre /\
    Matches r (group0 m) /\
    bt r (group0 m ++ rest) Some = Some rest /\
    (forall pre' w' post',
        s = pre' ++ w' ++ post' -> Matches r w' ->
        String.length pre <= String.length pre').
Proof.
  assert (Hhere : forall s pos m, match_here r pos s = Some m ->
    exists pre rest,
      s = pre ++ group0 m ++ rest /\
      m_start m = pos + String.length pre /\
      Matches r (group0 m) /\
      bt r (group0 m ++ rest) Some = Some rest /\
      (forall pre' w' post',
          s = pre' ++ w' ++ post' -> Matches r w' ->
          String.length pre <= String.length pre')).
  { intros s pos m Hm.
    destruct (match_here_spec _ _ _ _ Hm) as (rest & Hs & Hw & Hpos & Hbt).
    exists "", rest. rewrite str_app_nil_l, <- Hs. simpl.
    split; [reflexivity|]. split; [lia|]. split; [exact Hw|]. split; [exact Hbt|].
    intros. lia. }
  induction s as [|x s IH]; intros pos m; simpl.
  - destruct (match_here r pos "") as [m'|] eqn:Hm; [|intros [=]].
    intros [= ->]. now apply Hhere.
  - destruct (match_here r pos (String x s)) as [m'|] eqn:Hm.
    + intros [= ->]. now apply Hhere.
    + intros H. destruct (IH _ _ H) as (pre & rest & -> & Hpos & Hw & Hbt & Hleft).
      exists (String x pre), rest. simpl.
      split; [reflexivity|]. split; [lia|]. split; [exact Hw|]. split; [exact Hbt|].
      intros pre' w' post' Hs Hw'. destruct pre' as [|y pre'].
      * exfalso. rewrite str_app_nil_l in Hs.
        destruct (match_here_complete r pos w' post' Hw') as [m' Hm'].
        rewrite <- Hs in Hm'. congruence.
      * rewrite str_app_cons in Hs. injection Hs as _ Hs. simpl.
        specialize (Hleft pre' w' post' Hs Hw'). lia.
Qed.

(** What the engine returns is what some call of the continuation
    returned. *)
Lemma bt_from_continuation {A} r s (k : string -> option A) a :
  bt r s k = Some a -> exists s', k s' = Some a.
Proof. intros H. destruct (bt_sound _ _ _ _ H) as (_ & rest & _ & _ & Hk). eauto. Qed.

(** The repetition leaves nothing it could still take. *)
Lemma bt_star_greedy cs : forall s rest,
  bt_star cs s Some = Some rest -> starts_in cs rest = false.
Proof.
  induction s as [|x s IH]; intros rest; simpl.
  - now intros [= <-].
  - destruct (set_member cs x) eqn:Hx.
    + destruct (bt_star cs s Some) as [a|] eqn:Hs.
      * intros [= <-]. now apply IH.
      * destruct (bt_star_some cs s Some) as [a Ha]; [eauto | congruence].
    + intros [= <-]. simpl. exact Hx.
Qed.

Lemma link_pattern_greedy body s rest :
  bt (link_pattern body) s Some = Some rest -> starts_in word_dash rest = false.
Proof.
  unfold link_pattern. intros H.
  change (bt scheme s (fun s1 => bt www s1 (fun s2 =>
            bt (lits body) s2 (fun s3 => bt (Plus word_dash) s3 Some))) = Some rest) in H.
  apply bt_from_continuation in H as (s1 & H).
  apply bt_from_continuation in H as (s2 & H).
  apply bt_from_continuation in H as (s3 & H).
  destruct s3 as [|x s3]; [discriminate|].
  change (bt (Plus word_dash) (String x s3) Some)
    with (if set_member word_dash x then bt_star word_dash s3 Some else None) in H.
  destruct (set_member word_dash x); [|discriminate].
  now apply bt_star_greedy in H.
Qed.

(** X1. When a shape occurs several times in the text, [re.search] gives
    its first occurrence: the match starts where [m_start] says, and no
    substring of the text that matches the pattern starts before it. *)
Theorem search_leftmost (r : regex) (text : string) (m : re_match)
        (pre' w' post' : string) :
  search r text = Some m ->
  text = pre' ++ w' ++ post' ->
  Matches r w' ->
  m_start m <= String.length pre' /\
  exists pre post, text = pre ++ group0 m ++ post /\
                   String.length pre = m_start m /\ Matches r (group0 m).
Proof.
  intros Hm Htext Hw'.
  destruct (search_from_spec r text 0 m Hm) as (pre & rest & Hs & Hpos & Hw & _ & Hleft).
  simpl in Hpos. split.
  - rewrite Hpos. now apply (Hleft pre' w' post').
  - exists pre, rest. auto.
Qed.

Lemma search_leftmost_witness :
  exists m, search watch_pattern
              "youtube.com/watch?v=a youtube.com/watch?v=b" = Some m /\
            m_start m <= 22 /\ group0 m = "youtube.com/watch?v=a".
Proof.
  eexists. split; [vm_compute; reflexivity|]. split; [|reflexivity].
  refine (proj1 (search_leftmost watch_pattern
            "youtube.com/watch?v=a youtube.com/watch?v=b" _
            "youtube.com/watch?v=a " "youtube.com/watch?v=b" "" _ eq_refl _)).
  - vm_compute. reflexivity.
  - apply (M_cat _ _ "" "youtube.com/watch?v=b"); [apply M_opt_none|].
    apply (M_cat _ _ "" "youtube.com/watch?v=b"); [apply M_opt_none|].
    apply M_group.
    apply (M_cat _ _ "youtube.com/watch?v=" "b").
    + repeat (apply (M_cat _ _ (String _ "") _); [now apply M_lit|]).
      now apply M_lit.
    + now apply M_plus_one.
Defined.

(** X2. The identifier is taken as long as it goes: at the position where
    [re.search] places the match, the text is the match followed by a rest,
    and the first character of that rest, if there is one, is neither a
    word character nor a dash. *)
Theorem match_is_maximal (body text : string) (m : re_match) :
  search (link_pattern body) text = Some m ->
  exists pre post, text = pre ++ group0 m ++ post /\
                   String.length pre = m_start m /\
                   Matches (link_pattern body) (group0 m) /\
                   starts_in word_dash post = false.
Proof.
  intros Hm.
  destruct (search_from_spec _ text 0 m Hm) as (pre & rest & Hs & Hpos & Hw & Hbt & _).
  exists pre, rest. split; [exact Hs|]. split; [now rewrite Hpos|].
  split; [exact Hw|]. now apply link_pattern_greedy in Hbt.
Qed.

Lemma match_is_maximal_witness :
  exists m pre post,
    search short_pattern "youtu.be/ab-c_9?t=1 youtu.be/ab" = Some m /\
    group0 m = "youtu.be/ab-c_9" /\
    "youtu.be/ab-c_9?t=1 youtu.be/ab" = pre ++ group0 m ++ post /\
    String.length pre = m_start m /\
    starts_in word_dash post = false.
Proof.
  assert (H : exists m, search (link_pattern "youtu.be/")
                          "youtu.be/ab-c_9?t=1 youtu.be/ab" = Some m /\
                        group0 m = "youtu.be/ab-c_9")
    by (eexists; split; vm_compute; reflexivity).
  destruct H as (m & Hm & Hg).
  destruct (match_is_maximal "youtu.be/" "youtu.be/ab-c_9?t=1 youtu.be/ab" m Hm)
    as (pre & post & Hs & Hpre & _ & Hpost).
  exists m, pre, post. auto.
Defined.

(** ** The matcher against the four shapes *)

Lemma first_pattern_sound ps s url :
  first_pattern ps (PyStr s) = Return (Some url) ->
  exists p m, p ∈ ps /\ search p s = Some m /\ url = extract_url m.
Proof.
  induction ps as [|p ps IH]; simpl; [discriminate|].
  destruct (search p s) as [m|] eqn:Hm.
  - intros [= <-]. exists p, m. split; [now left | auto].
  - intros H. destruct (IH H) as (q & m & Hq & Hsearch & Hurl).
    exists q, m. split; [now right | auto].
Qed.

Lemma first_pattern_none ps s :
  first_pattern ps (PyStr s) = Return None <-> forall p, p ∈ ps -> search p s = None.
Proof.
  induction ps as [|p ps IH]; simpl.
  - split; [|reflexivity]. intros _ p Hp. now apply elem_of_nil in Hp.
  - destruct (search p s) as [m|] eqn:Hm.
    + split; [discriminate|]. intros H. specialize (H p (list_elem_of_here _ _)).
      congruence.
    + rewrite IH. split.
      * intros H q [-> | Hq]%elem_of_cons; [exact Hm | now apply H].
      * intros H q Hq. apply H. now right.
Qed.

Lemma extract_url_shape m :
  (extract_url m = group0 m \/ extract_url m = "https://" ++ group0 m) /\
  Str.startswith "http" (extract_url m) = true.
Proof.
  unfold extract_url. destruct (Str.startswith "http" (group0 m)) eqn:Hp; cbn [negb].
  - auto.
  - split; [now right|]. unfold Str.startswith. apply prefix_correct.
    apply (slice_to_app "http" ("s://" ++ group0 m)).
Qed.

Lemma is_youtube_url_str s :
  is_youtube_url (PyStr s)
  = if String.eqb s "" then Return None else first_pattern youtube_patterns (PyStr s).
Proof. unfold is_youtube_url. simpl. now destruct (String.eqb s ""). Qed.

Lemma no_link_in_empty : ~ contains_link "".
Proof.
  intros (p & pre & w & post & Hp & Hs & Hw).
  destruct (search_complete p pre w post Hw) as [m Hm]. rewrite <- Hs in Hm.
  unfold youtube_patterns in Hp.
  repeat (apply elem_of_cons in Hp as [-> | Hp]; [vm_compute in Hm; discriminate|]).
  now apply elem_of_nil in Hp.
Qed.

(** X3. A link the matcher returns comes from the text: it is a substring
    of the text that has one of the four shapes, as it stands or with
    ["https://"] in front of it; and it starts with ["http"]. *)
Theorem matcher_sound (text url : string) :
  is_youtube_url (PyStr text) = Return (Some url) ->
  exists p pre w post,
    p ∈ youtube_patterns /\ text = pre ++ w ++ post /\ Matches p w /\
    (url = w \/ url = "https://" ++ w) /\
    Str.startswith "http" url = true.
Proof.
  rewrite is_youtube_url_str. destruct (String.eqb text ""); [discriminate|].
  intros (p & m & Hp & Hm & ->)%first_pattern_sound.
  destruct (search_sound _ _ _ Hm) as (pre & post & Hs & Hw).
  exists p, pre, (group0 m), post. destruct (extract_url_shape m). auto 10.
Qed.

Lemma matcher_sound_witness :
  exists p pre w post,
    p ∈ youtube_patterns /\
    "watch www.youtube.com/shorts/Ab_1 now" = pre ++ w ++ post /\ Matches p w /\
    ("https://www.youtube.com/shorts/Ab_1" = w \/
     "https://www.youtube.com/shorts/Ab_1" = "https://" ++ w).
Proof.
  destruct (matcher_sound "watch www.youtube.com/shorts/Ab_1 now"
              "https://www.youtube.com/shorts/Ab_1")
    as (p & pre & w & post & Hp & Hs & Hw & Hurl & _).
  - vm_compute. reflexivity.
  - exists p, pre, w, post. auto.
Defined.

(** X4. On a string the matcher returns [None] exactly when the text has
    no substring of any of the four shapes (the empty string has none). *)
Theorem matcher_none_iff_no_link (text : string) :
  is_youtube_url (PyStr text) = Return None <-> ~ contains_link text.
Proof.
  rewrite is_youtube_url_str. destruct (String.eqb_spec text "") as [->|Hne].
  - split; [intros _; apply no_link_in_empty | reflexivity].
  - rewrite first_pattern_none. split.
    + intros Hnone (p & pre & w & post & Hp & Hs & Hw).
      destruct (search_complete p pre w post Hw) as [m Hm]. rewrite <- Hs in Hm.
      rewrite (Hnone p Hp) in Hm. discriminate.
    + intros Hno p Hp. destruct (search p text) as [m|] eqn:Hm; [|reflexivity].
      exfalso. apply Hno.
      destruct (search_sound _ _ _ Hm) as (pre & post & Hs & Hw).
      now exists p, pre, (group0 m), post.
Qed.

(** ** What is written to the log *)

Lemma slice_to_length n : forall s, String.length (Str.slice_to n s) <= n.
Proof.
  unfold Str.slice_to. induction n as [|n IH]; intros [|c s]; simpl; try lia.
  specialize (IH s). lia.
Qed.

Lemma show_notification_log n d d0 :
  notification_ok n -> notifications d = notifications d0 ->
  exists evs, log (show_notification n d) = (log d ++ evs)%list /\
              Forall (event_ok d0) evs.
Proof.
  intros Hn Hsame. unfold show_notification.
  destruct (notifications d) eqn:Hon; simpl.
  - exists [Notify n]. split; [reflexivity|]. repeat constructor; auto.
  - exists []. now rewrite List.app_nil_r.
Qed.

Lemma add_to_queue_log url d :
  exists evs, log (add_to_queue url d) = (log d ++ evs)%list /\ Forall (event_ok d) evs.
Proof.
  unfold add_to_queue. case_bool_decide.
  - exists [Log_already_queued url]. split; [reflexivity|]. now repeat constructor.
  - cbv zeta.
    match goal with
    | |- context [if ?b then _ else _] => destruct b
    end;
      match goal with
      | |- context [show_notification ?n (emit ?e ?d0)] =>
          destruct (show_notification_log n (emit e d0) d I eq_refl)
            as (evs & -> & Hevs);
          exists (e :: evs); simpl; rewrite <- List.app_assoc;
          split; [reflexivity|]; constructor; [exact I | exact Hevs]
      end.
Qed.

Lemma monitor_tick_log p d :
  exists evs, log (monitor_tick p d) = (log d ++ evs)%list /\ Forall (event_ok d) evs.
Proof.
  assert (Hnil : exists evs, log d = (log d ++ evs)%list /\ Forall (event_ok d) evs)
    by (exists []; now rewrite List.app_nil_r).
  unfold monitor_tick. destruct p as [c|e].
  - destruct (negb (c =? last_clipboard d)%string); [|exact Hnil].
    destruct (is_youtube_url (PyStr c)) as [[url|]|e]; cbv zeta.
    + destruct (truthy (PyStr url)); [|exact Hnil].
      destruct (add_to_queue_log url (emit (Log_detected url) (set_last_clipboard c d)))
        as (evs & -> & Hevs).
      exists (Log_detected url :: evs). simpl. rewrite <- List.app_assoc.
      split; [reflexivity|]. constructor; [exact I | exact Hevs].
    + exact Hnil.
    + exists [Log_monitor_error e]. split; [reflexivity|]. now repeat constructor.
  - exists [Log_monitor_error e]. split; [reflexivity|]. now repeat constructor.
Qed.

Lemma worker_step_log d d' :
  worker_step d = Some d' ->
  exists evs, log d' = (log d ++ evs)%list /\ Forall (event_ok d) evs.
Proof.
  assert (Hnil : exists evs, log d = (log d ++ evs)%list /\ Forall (event_ok d) evs)
    by (exists []; now rewrite List.app_nil_r).
  unfold worker_step.
  destruct (worker d) as [|[url|]|url|url|url|url esc|url esc| |] eqn:Hw;
    try discriminate; try (intros [= <-]; exact Hnil).
  - destruct (download_queue d); [discriminate|]. intros [= <-]. exact Hnil.
  - intros [= <-]. cbv zeta.
    destruct (show_notification_log (N_started (qsize d)) (emit (Log_starting url) d)
                d I eq_refl) as (evs & Hlog & Hevs).
    exists (Log_starting url :: evs). simpl in *. rewrite Hlog, <- List.app_assoc.
    split; [reflexivity|]. constructor; [exact I | exact Hevs].
  - destruct (unfinished_tasks d) eqn:Hu; intros [= <-]; [|exact Hnil].
    exists [Log_worker_error ValueError]. split; [reflexivity|].
    constructor; [now split | constructor].
Qed.

Lemma download_returns_log o d d' :
  download_returns o d = Some d' ->
  exists evs, log d' = (log d ++ evs)%list /\ Forall (event_ok d) evs.
Proof.
  unfold download_returns. destruct (worker d) as [| | | |url| | | |]; try discriminate.
  destruct o as [title|e|]; intros [= <-]; cbv zeta.
  - match goal with
    | |- context [show_notification ?n (emit ?e ?d0)] =>
        destruct (show_notification_log n (emit e d0) d) as (evs & Hlog & Hevs);
        [|reflexivity
         |exists (e :: evs); simpl in *; rewrite Hlog, <- List.app_assoc;
          split; [reflexivity|]; constructor; [exact I | exact Hevs]]
    end.
    destruct (Nat.ltb 0 _); simpl; apply slice_to_length.
  - match goal with
    | |- context [show_notification ?n (emit ?e ?d0)] =>
        destruct (show_notification_log n (emit e d0) d) as (evs & Hlog & Hevs);
        [|reflexivity
         |exists (e :: evs); simpl in *; rewrite Hlog, <- List.app_assoc;
          split; [reflexivity|]; constructor; [exact I | exact Hevs]]
    end.
    simpl. apply slice_to_length.
  - exists []. simpl. now rewrite List.app_nil_r.
Qed.

(** Every action adds to the log, and only what the state allows. *)
Lemma exec_log a d d' :
  exec a d = Some d' ->
  exists evs, log d' = (log d ++ evs)%list /\ Forall (event_ok d) evs.
Proof.
  destruct a as [p| |o]; simpl.
  - intros [= <-]. apply monitor_tick_log.
  - apply worker_step_log.
  - apply download_returns_log.
Qed.

(** ** At most once *)

Lemma accepted_ok_step a d d' : accepted_ok d -> exec a d = Some d' -> accepted_ok d'.
Proof.
  unfold accepted_ok. intros [Hnd Hiff] Ha. destruct a as [p| |o]; simpl in Ha.
  - injection Ha as <-.
    destruct (monitor_tick_effect p d) as
      (_ & [(-> & _ & _ & ->) | (url & Hfresh & -> & _ & _ & ->)]); [now split|].
    split.
    + apply NoDup_app. split; [exact Hnd|]. split; [|apply NoDup_singleton].
      intros x Hx ->%list_elem_of_singleton. apply Hfresh. now apply Hiff.
    + intros u. rewrite elem_of_union, elem_of_singleton, elem_of_app,
        list_elem_of_singleton, Hiff. tauto.
  - destruct (worker_step_effect _ _ Ha) as ((_ & -> & _ & ->) & _). now split.
  - destruct (download_returns_effect _ _ _ Ha)
      as (url & _ & _ & _ & -> & _ & _ & _ & _ & _ & _ & ->). now split.
Qed.

Lemma reachable_accepted d : reachable d -> accepted_ok d.
Proof.
  intros (notify & tr & Hrun).
  apply (run_preserves accepted_ok accepted_ok_step tr _ _) in Hrun; [exact Hrun|].
  split; [constructor|]. intros url. simpl. split.
  - intros H. now apply not_elem_of_empty in H.
  - intros H. now apply elem_of_nil in H.
Qed.

Lemma fifo_split d :
  fifo_ok d ->
  exists pending, enqueued (log d) = (started (log d) ++ pending)%list /\
                  Some <$> pending = (in_hand (worker d) ++ download_queue d)%list.
Proof.
  unfold fifo_ok. intros (l1 & l2 & Hl1 & Hl2 & Henq)%fmap_app_inv.
  apply (inj (fmap Some)) in Hl1. subst l1. eauto.
Qed.

(** X5. No link is ever downloaded twice: in every state the program gets
    to, the links accepted into the queue are pairwise different, so are the
    links whose download was started, and each started or queued link is in
    the ledger. *)
Theorem at_most_once (d : downloader) :
  reachable d ->
  NoDup (enqueued (log d)) /\ NoDup (started (log d)) /\
  (forall url, url ∈ started (log d) \/ Some url ∈ download_queue d ->
               url ∈ downloaded_urls d).
Proof.
  intros Hreach. destruct (reachable_accepted d Hreach) as [Hnd Hiff].
  destruct (reachable_ok d Hreach) as (_ & Hfifo & _).
  destruct (fifo_split d Hfifo) as (pending & Henq & Hpend).
  split; [exact Hnd|]. rewrite Henq in Hnd. apply NoDup_app in Hnd as (Hst & _ & _).
  split; [exact Hst|]. intros url [Hin | Hin]; apply Hiff; rewrite Henq, elem_of_app.
  - now left.
  - right. assert (Hp : Some url ∈ Some <$> pending)
      by (rewrite Hpend, elem_of_app; now right).
    now apply list_elem_of_fmap in Hp as (y & [= <-] & Hy).
Qed.

Lemma at_most_once_witness :
  NoDup (enqueued (log two_queued)) /\ NoDup (started (log two_queued)) /\
  (forall url, url ∈ started (log two_queued) \/ Some url ∈ download_queue two_queued ->
               url ∈ downloaded_urls two_queued).
Proof.
  apply (at_most_once two_queued).
  now exists true, [Tick (Pasted watch_link); Tick (Pasted short_link)].
Defined.

(** ** The queue's counter *)

Lemma no_worker_error d evs :
  Forall (event_ok d) evs -> owed (worker d) <= unfinished_tasks d ->
  worker_errors evs = [].
Proof.
  intros Hevs Howed. induction Hevs as [|e evs He _ IH]; [reflexivity|].
  destruct e; simpl in *; try exact IH.
  destruct He as [Hw Hu]. rewrite Hw, Hu in Howed. simpl in Howed. lia.
Qed.

Lemma worker_errors_app l1 l2 :
  worker_errors (l1 ++ l2)%list = (worker_errors l1 ++ worker_errors l2)%list.
Proof. apply omap_app. Qed.

Lemma worker_step_tasks d d' :
  worker_step d = Some d' ->
  qsize d + owed (worker d) <= unfinished_tasks d ->
  qsize d' + owed (worker d') <= unfinished_tasks d'.
Proof.
  unfold worker_step, qsize.
  destruct (worker d) as [|[url|]|url|url|url|url esc|url esc| |];
    try discriminate;
    try (intros [= <-]; unfold show_notification; simpl;
         try destruct (notifications d); try destruct esc; simpl; lia).
  - destruct (download_queue d); [discriminate|]. intros [= <-]. simpl. lia.
  - destruct (unfinished_tasks d); intros [= <-]; simpl; lia.
Qed.

Lemma tasks_ok_step a d d' : tasks_ok d -> exec a d = Some d' -> tasks_ok d'.
Proof.
  unfold tasks_ok. intros [Hle Herr] Ha.
  destruct (exec_log a d d' Ha) as (evs & Hlog & Hevs).
  split.
  - destruct a as [p| |o]; simpl in Ha.
    + injection Ha as <-. unfold qsize in *.
      destruct (monitor_tick_effect p d) as
        ((_ & _ & _ & -> & _) & [(_ & -> & -> & _) | (url & _ & _ & -> & -> & _)]);
        [exact Hle|]. rewrite length_app. simpl. lia.
    + now apply (worker_step_tasks d).
    + unfold qsize in *. destruct (download_returns_effect _ _ _ Ha)
        as (url & Hw & -> & _ & _ & _ & -> & -> & _).
      now rewrite Hw in Hle.
  - rewrite Hlog, worker_errors_app, Herr. simpl.
    apply (no_worker_error d); [exact Hevs | lia].
Qed.

(** X7. [task_done()] never raises: in every state the program gets to
    with options that can be built, line 205 has logged no error of the
    worker, and the queue's counter of unfinished tasks covers the queued
    items and the one the worker holds. *)
Theorem task_done_never_raises (d : downloader) :
  reachable d ->
  worker_errors (log d) = [] /\
  qsize d + owed (worker d) <= unfinished_tasks d.
Proof.
  intros (notify & tr & Hrun).
  apply (run_preserves tasks_ok tasks_ok_step tr _ _) in Hrun.
  - destruct Hrun. auto.
  - split; [simpl; lia | reflexivity].
Qed.

Lemma task_done_never_raises_witness :
  worker_errors (log two_queued) = [] /\
  qsize two_queued + owed (worker two_queued) <= unfinished_tasks two_queued.
Proof.
  apply (task_done_never_raises two_queued).
  now exists true, [Tick (Pasted watch_link); Tick (Pasted short_link)].
Defined.

(** ** Notifications *)

Lemma records_app l1 l2 : records (l1 ++ l2)%list = (records l1 ++ records l2)%list.
Proof. apply List.filter_app. Qed.

Lemma notified_app l1 l2 : notified (l1 ++ l2)%list = (notified l1 ++ notified l2)%list.
Proof. apply omap_app. Qed.

Lemma silent_show_notification n d : silent (show_notification n d) = silent d.
Proof.
  unfold show_notification, silent. destruct (notifications d); simpl; [|reflexivity].
  now rewrite records_app, List.app_nil_r.
Qed.

Lemma show_notification_silent n d : show_notification n (silent d) = silent d.
Proof. reflexivity. Qed.

Lemma add_to_queue_silent url d :
  add_to_queue url (silent d) = silent (add_to_queue url d).
Proof.
  destruct d as [n led lc qu uf isd cur w lg].
  unfold add_to_queue, silent, show_notification, qsize. simpl.
  case_bool_decide; simpl; [now rewrite records_app|].
  destruct (Nat.eqb _ 1 && negb isd); destruct n; simpl;
    rewrite !records_app; simpl; now rewrite ?List.app_nil_r.
Qed.

Ltac silent_fields :=
  unfold silent, show_notification, emit, set_last_clipboard, set_worker,
    set_current, set_queue; simpl;
  repeat match goal with H : notifications _ = _ |- _ => rewrite H; clear H end;
  simpl; rewrite ?records_app; simpl; rewrite ?List.app_nil_r; reflexivity.

Lemma monitor_tick_silent p d :
  monitor_tick p (silent d) = silent (monitor_tick p d).
Proof.
  unfold monitor_tick. destruct p as [c|e]; [|silent_fields].
  simpl last_clipboard. destruct (negb (c =? last_clipboard d)%string); [|reflexivity].
  cbv zeta. destruct (is_youtube_url (PyStr c)) as [[url|]|e];
    [|reflexivity|silent_fields].
  destruct (truthy (PyStr url)); [|reflexivity].
  rewrite <- add_to_queue_silent. f_equal. silent_fields.
Qed.

Lemma worker_step_silent d : worker_step (silent d) = silent <$> worker_step d.
Proof.
  unfold worker_step. simpl.
  destruct (worker d) as [|[url|]|url|url|url|url esc|url esc| |]; try reflexivity.
  - now destruct (download_queue d).
  - cbv zeta. simpl. f_equal. destruct (notifications d) eqn:Hon; silent_fields.
  - destruct (unfinished_tasks d); simpl; [|reflexivity]. f_equal. silent_fields.
Qed.

Lemma download_returns_silent o d :
  download_returns o (silent d) = silent <$> download_returns o d.
Proof.
  unfold download_returns. simpl.
  destruct (worker d) as [| | | |url| | | |]; try reflexivity.
  destruct o as [title|e|]; cbv zeta; simpl; f_equal;
    destruct (notifications d) eqn:Hon; silent_fields.
Qed.

Lemma exec_silent a d : exec a (silent d) = silent <$> exec a d.
Proof.
  destruct a as [p| |o]; simpl.
  - now rewrite monitor_tick_silent.
  - apply worker_step_silent.
  - apply download_returns_silent.
Qed.

(** X8. Notifications bear on nothing else: the same actions run with
    notifications off give the same ledger, queue, clipboard memory,
    current-download fields, worker position and log records, the log
    having lost its notifications and nothing more. *)
Theorem notifications_do_not_interfere (tr : list action) (d : downloader) :
  run tr (silent d) = silent <$> run tr d.
Proof.
  revert d. induction tr as [|a tr IH]; intros d; simpl; [reflexivity|].
  rewrite exec_silent. destruct (exec a d) as [d1|]; simpl; [apply IH | reflexivity].
Qed.

Lemma notified_none evs d :
  Forall (event_ok d) evs -> notifications d = false -> notified evs = [].
Proof.
  intros Hevs Hoff. induction Hevs as [|e evs He _ IH]; [reflexivity|].
  destruct e; simpl in *; try exact IH. destruct He. congruence.
Qed.

Lemma notifications_kept a d d' : exec a d = Some d' -> notifications d' = notifications d.
Proof.
  destruct a as [p| |o]; simpl; intros Ha.
  - injection Ha as <-. now destruct (monitor_tick_effect p d) as ((-> & _) & _).
  - now destruct (worker_step_effect _ _ Ha) as ((-> & _) & _).
  - now destruct (download_returns_effect _ _ _ Ha) as (url & _ & _ & -> & _).
Qed.

(** X9. With notifications disabled in the configuration, or with no
    notification backend, the program never notifies: whatever it does, no
    notification is written, and the setting itself never changes. *)
Theorem disabled_never_notifies (tr : list action) (d : downloader) :
  run tr (init false) = Some d ->
  notifications d = false /\ notified (log d) = [].
Proof.
  apply (run_preserves (fun x => notifications x = false /\ notified (log x) = []));
    [|now split].
  intros a x y [Hoff Hnone] Ha. split.
  - now rewrite (notifications_kept a x y Ha).
  - destruct (exec_log a x y Ha) as (evs & -> & Hevs).
    rewrite notified_app, Hnone. simpl. now apply (notified_none evs x).
Qed.

Lemma disabled_never_notifies_witness :
  exists d, run [Tick (Pasted watch_link); Work; Work] (init false) = Some d /\
            notified (log d) = [].
Proof.
  assert (H : exists d, run [Tick (Pasted watch_link); Work; Work] (init false) = Some d)
    by (eexists; vm_compute; reflexivity).
  destruct H as [d Hd]. exists d. split; [exact Hd|].
  exact (proj2 (disabled_never_notifies _ d Hd)).
Defined.

Lemma notified_ok evs d :
  Forall (event_ok d) evs -> Forall notification_ok (notified evs).
Proof.
  intros Hevs. induction Hevs as [|e evs He _ IH]; [constructor|].
  destruct e; simpl in *; try exact IH. destruct He. now constructor.
Qed.

Lemma display_name_length url : String.length (display_name url) <= 53.
Proof.
  unfold display_name. rewrite str_length_app. simpl.
  pose proof (slice_to_length 50 url). lia.
Qed.

(** X10. What is shown is cut to size: in every state the program gets
    to, each error text notified has at most 100 characters, each title
    notified at most 50, and [current_download], when set, at most 53. *)
Theorem shown_texts_are_bounded (d : downloader) :
  reachable d ->
  Forall notification_ok (notified (log d)) /\
  (forall c, current_download d = Some c -> String.length c <= 53).
Proof.
  intros Hreach. split.
  - destruct Hreach as (notify & tr & Hrun).
    apply (run_preserves (fun x => Forall notification_ok (notified (log x)))
             ) with (tr := tr) (d := init notify); [|constructor|exact Hrun].
    intros a x y Hx Ha. destruct (exec_log a x y Ha) as (evs & -> & Hevs).
    rewrite notified_app. apply Forall_app. split; [exact Hx|].
    now apply (notified_ok evs x).
  - destruct (reachable_ok d Hreach) as ((_ & Hc) & _). intros c. rewrite Hc.
    destruct (in_flight (worker d)) as [url|]; [|discriminate].
    intros [= <-]. apply display_name_length.
Qed.

Lemma shown_texts_are_bounded_witness :
  exists d,
    run shown_history (init true) = Some d /\
    N_complete_next (Str.slice_to 50 long_title) 2 ∈ notified (log d) /\
    String.length long_title = 65 /\
    N_failed (Str.slice_to 100 long_error) ∈ notified (log d) /\
    String.length long_error = 125 /\
    current_download d = Some (display_name playlist_a) /\
    String.length playlist_a = 62 /\
    Forall notification_ok (notified (log d)) /\
    (forall c, current_download d = Some c -> String.length c <= 53).
Proof.
  destruct (run shown_history (init true)) as [d|] eqn:Hrun;
    [|vm_compute in Hrun; discriminate].
  exists d. split; [reflexivity|].
  assert (Hn : notified (log d) !! 4
               = Some (N_complete_next (Str.slice_to 50 long_title) 2) /\
               notified (log d) !! 6 = Some (N_failed (Str.slice_to 100 long_error)) /\
               current_download d = Some (display_name playlist_a)).
  { vm_compute in Hrun. injection Hrun as <-. repeat split; vm_compute; reflexivity. }
  destruct Hn as (H4 & H6 & Hc).
  split; [exact (list_elem_of_lookup_2 _ _ _ H4)|]. split; [reflexivity|].
  split; [exact (list_elem_of_lookup_2 _ _ _ H6)|]. split; [reflexivity|].
  split; [exact Hc|]. split; [reflexivity|].
  apply (shown_texts_are_bounded d). now exists true, shown_history.
Defined.

(** ** Where the links come from *)

Lemma monitor_tick_source p d url :
  url ∈ downloaded_urls (monitor_tick p d) ->
  url ∈ downloaded_urls d \/ from_matcher url.
Proof.
  unfold monitor_tick. destruct p as [c|e]; [|now left].
  destruct (negb (c =? last_clipboard d)%string); [|now left].
  cbv zeta. destruct (is_youtube_url (PyStr c)) as [[u|]|e] eqn:Hu; try (now left).
  destruct (truthy (PyStr u)); [|now left].
  destruct (add_to_queue_effect u (emit (Log_detected u) (set_last_clipboard c d)))
    as (_ & [(_ & -> & _) | (_ & -> & _)]); [now left|].
  intros [->%elem_of_singleton | Hin]%elem_of_union; [|now left].
  right. now exists c.
Qed.

Lemma from_matcher_step a d d' :
  (forall url, url ∈ downloaded_urls d -> from_matcher url) ->
  exec a d = Some d' ->
  forall url, url ∈ downloaded_urls d' -> from_matcher url.
Proof.
  intros Hd Ha url. destruct a as [p| |o]; simpl in Ha.
  - injection Ha as <-. intros [Hin | Hm]%monitor_tick_source; [now apply Hd | exact Hm].
  - destruct (worker_step_effect _ _ Ha) as ((_ & -> & _) & _). apply Hd.
  - destruct (download_returns_effect _ _ _ Ha) as (u & _ & _ & _ & -> & _). apply Hd.
Qed.

(** X11. Nothing is downloaded that the matcher did not return: in every
    state the program gets to, each link of the ledger (hence each link
    queued or started) is what the matcher returns for some text, has a
    substring of that text of one of the four shapes at its end, and starts
    with ["http"]. *)
Theorem ledger_links_come_from_matcher (d : downloader) (url : string) :
  reachable d ->
  url ∈ downloaded_urls d ->
  Str.startswith "http" url = true /\
  exists text p w,
    is_youtube_url (PyStr text) = Return (Some url) /\
    p ∈ youtube_patterns /\ Matches p w /\ (url = w \/ url = "https://" ++ w).
Proof.
  intros (notify & tr & Hrun) Hin.
  assert (Hfrom : from_matcher url).
  { revert url Hin.
    apply (run_preserves (fun x => forall u, u ∈ downloaded_urls x -> from_matcher u)
             from_matcher_step tr (init notify) d); [|exact Hrun].
    intros u Hu. now apply not_elem_of_empty in Hu. }
  destruct Hfrom as [text Htext].
  rewrite is_youtube_url_str in Htext.
  destruct (String.eqb text "") eqn:Hempty; [discriminate|].
  pose proof Htext as (p & m & Hp & Hm & ->)%first_pattern_sound.
  destruct (search_sound _ _ _ Hm) as (pre & post & Hs & Hw).
  destruct (extract_url_shape m) as [Hshape Hhttp].
  split; [exact Hhttp|]. exists text, p, (group0 m).
  rewrite is_youtube_url_str, Hempty. auto.
Qed.

Lemma ledger_links_come_from_matcher_witness :
  Str.startswith "http" watch_link = true /\
  exists text p w,
    is_youtube_url (PyStr text) = Return (Some watch_link) /\
    p ∈ youtube_patterns /\ Matches p w /\
    (watch_link = w \/ watch_link = "https://" ++ w).
Proof.
  apply (ledger_links_come_from_matcher two_queued watch_link).
  - now exists true, [Tick (Pasted watch_link); Tick (Pasted short_link)].
  - apply (bool_decide_unpack _). vm_compute. exact I.
Defined.

(** X12. The worker's way out through the poison value is never taken:
    nothing in the program puts [None] on the queue, so in every state the
    program gets to the queue holds links only, and [get()] has never handed
    [None] to the worker. *)
Theorem poison_is_never_queued (d : downloader) :
  reachable d ->
  Forall is_Some (download_queue d) /\
  (forall item, worker d = WPopped item -> is_Some item).
Proof.
  intros Hreach. destruct (reachable_ok d Hreach) as (_ & _ & _ & Hin).
  split.
  - apply Forall_forall. intros x Hx.
    destruct (Hin x) as (url & -> & _); [apply elem_of_app; now right | eauto].
  - intros item Hw. rewrite Hw in Hin.
    destruct (Hin item) as (url & -> & _); [now left | eauto].
Qed.

Lemma poison_is_never_queued_witness :
  Forall is_Some (download_queue two_queued) /\
  (forall item, worker two_queued = WPopped item -> is_Some item).
Proof.
  apply (poison_is_never_queued two_queued).
  now exists true, [Tick (Pasted watch_link); Tick (Pasted short_link)].
Defined.

(** ** An exception that nothing catches *)

Lemma stalled_step (q0 : list (option string)) (s0 : list string) a d d' :
  (worker d = WDead /\ is_downloading d = false /\ current_download d = None /\
   started (log d) = s0 /\ q0 `prefix_of` download_queue d) ->
  exec a d = Some d' ->
  worker d' = WDead /\ is_downloading d' = false /\ current_download d' = None /\
  started (log d') = s0 /\ q0 `prefix_of` download_queue d'.
Proof.
  intros (Hw & Hi & Hc & Hs & Hq) Ha. destruct a as [p| |o]; simpl in Ha.
  - injection Ha as <-.
    destruct (monitor_tick_effect p d) as
      ((_ & -> & -> & -> & ->) & [(_ & -> & _) | (url & _ & _ & -> & _)]);
      [auto 10|].
    repeat (split; [assumption|]). now apply prefix_app_r.
  - destruct (worker_step_effect _ _ Ha) as (_ & Hstep). now rewrite Hw in Hstep.
  - destruct (download_returns_effect _ _ _ Ha) as (url & Hrun & _). congruence.
Qed.

(** X13. An exception of the download operation that is no [Exception]
    ends the worker for good: the [finally] still clears the two fields,
    but from then on, whatever the monitor accepts, no download is started
    any more and nothing leaves the queue. *)
Theorem uncaught_exception_stalls_the_queue (d d' : downloader) (url : string)
        (tr : list action) :
  worker d = WRunning url ->
  run (Returns Aborted :: Work :: Work :: tr) d = Some d' ->
  worker d' = WDead /\ is_downloading d' = false /\ current_download d' = None /\
  started (log d') = started (log d) /\
  download_queue d `prefix_of` download_queue d'.
Proof.
  intros Hw Hrun.
  destruct (download_returns_enabled Aborted d url Hw) as [d1 H1].
  destruct (download_returns_effect _ _ _ H1)
    as (u & _ & Hw1 & _ & _ & _ & Hq1 & _ & _ & _ & Hs1 & _).
  destruct (worker_step_enabled d1) as [d2 H2]; [now rewrite Hw1|].
  destruct (worker_step_effect _ _ H2) as (_ & E2). rewrite Hw1 in E2.
  destruct E2 as (Hw2 & Hq2 & _ & _ & Hlog2).
  destruct (worker_step_enabled d2) as [d3 H3]; [now rewrite Hw2|].
  destruct (worker_step_effect _ _ H3) as (_ & E3). rewrite Hw2 in E3.
  destruct E3 as (Hw3 & Hq3 & Hi3 & Hc3 & Hlog3).
  simpl in Hrun. rewrite H1, H2, H3 in Hrun.
  assert (Hi2 : is_downloading d2 = false).
  { destruct (worker_step_effect _ _ H2) as (_ & E). rewrite Hw1 in E.
    now destruct E as (_ & _ & ? & _). }
  apply (run_preserves _ (stalled_step (download_queue d) (started (log d)))
           tr d3 d'); [|exact Hrun].
  rewrite Hw3, Hi3, Hi2, Hc3, Hlog3, Hlog2, Hs1, Hq3, Hq2, Hq1. auto 10.
Qed.

Lemma uncaught_exception_stalls_the_queue_witness :
  exists d', run [Returns Aborted; Work; Work; Tick (Pasted short_link)]
                 (set_worker (WRunning watch_link) detected) = Some d' /\
             worker d' = WDead /\
             download_queue detected `prefix_of` download_queue d'.
Proof.
  assert (H : exists d', run [Returns Aborted; Work; Work; Tick (Pasted short_link)]
                             (set_worker (WRunning watch_link) detected) = Some d')
    by (eexists; vm_compute; reflexivity).
  destruct H as [d' Hd']. exists d'. split; [exact Hd'|].
  destruct (uncaught_exception_stalls_the_queue
              (set_worker (WRunning watch_link) detected) d' watch_link
              [Tick (Pasted short_link)] eq_refl Hd') as (Hw & _ & _ & _ & Hq).
  auto.
Defined.

(** ** The monitor on a text without link *)

Lemma no_link_iff text :
  is_youtube_url (PyStr text) = Return None <-> ~ contains_link text.
Proof.
  rewrite is_youtube_url_str. destruct (String.eqb_spec text "") as [->|Hne].
  - split; [intros _; apply no_link_in_empty | reflexivity].
  - rewrite first_pattern_none. split.
    + intros Hnone (p & pre & w & post & Hp & Hs & Hw).
      destruct (search_complete p pre w post Hw) as [m Hm]. rewrite <- Hs in Hm.
      rewrite (Hnone p Hp) in Hm. discriminate.
    + intros Hno p Hp. destruct (search p text) as [m|] eqn:Hm; [|reflexivity].
      exfalso. apply Hno.
      destruct (search_sound _ _ _ Hm) as (pre & post & Hs & Hw).
      now exists p, pre, (group0 m), post.
Qed.

(** X14. A clipboard text that has no link of the four shapes is
    remembered as the last content and nothing else happens: ledger, queue,
    current-download fields and log stay as they are. *)
Theorem text_without_link_is_only_remembered (d : downloader) (text : string) :
  ~ contains_link text ->
  monitor_tick (Pasted text) d = set_last_clipboard text d.
Proof.
  intros Hno%no_link_iff. unfold monitor_tick.
  destruct (String.eqb_spec text (last_clipboard d)) as [->|Hne]; simpl.
  - now destruct d.
  - now rewrite Hno.
Qed.

Lemma text_without_link_is_only_remembered_witness :
  monitor_tick (Pasted "https://example.com/watch?v=1") detected
  = set_last_clipboard "https://example.com/watch?v=1" detected.
Proof.
  apply text_without_link_is_only_remembered.
  apply no_link_iff. vm_compute. reflexivity.
Defined.

(** ** The configuration *)

Lemma set_items_dom items : forall d, dom d ⊆ dom (set_items items d).
Proof.
  induction items as [|[k v] items IH]; intros d; simpl; [reflexivity|].
  etrans; [|apply IH]. rewrite dom_insert. apply union_subseteq_r.
Qed.

Lemma update_seq_dom seq : forall d, dom d ⊆ dom (update_seq seq d).1.
Proof.
  induction seq as [|item seq IH]; intros d; simpl; [reflexivity|].
  destruct (pair_of item) as [[key value]|e]; [|reflexivity].
  destruct key as [|b|n|k|l|items]; simpl; try apply IH; try reflexivity.
  etrans; [|apply IH]. rewrite dom_insert. apply union_subseteq_r.
Qed.

Lemma dict_update_dom other d : dom d ⊆ dom (dict_update other d).1.
Proof.
  destruct other as [|b|n|s|l|items]; simpl; try reflexivity.
  - now destruct s.
  - apply update_seq_dom.
  - apply set_items_dom.
Qed.

Lemma set_items_lookup items : forall d k,
  NoDup items.*1 ->
  (forall v, (k, v) ∈ items -> set_items items d !! k = Some v) /\
  (k ∉ items.*1 -> set_items items d !! k = d !! k).
Proof.
  induction items as [|[k0 v0] items IH]; intros d k Hnd; simpl.
  - split; [|reflexivity]. intros v Hin. now apply elem_of_nil in Hin.
  - simpl in Hnd. apply NoDup_cons in Hnd as [Hk0 Hnd].
    destruct (IH (<[k0:=v0]> d) k Hnd) as [Hin Hout]. split.
    + intros v [[= -> ->] | Hv]%elem_of_cons; [|now apply Hin].
      rewrite (proj2 (IH (<[k0:=v0]> d) k0 Hnd) Hk0). apply lookup_insert_eq.
    + intros Hnot. apply not_elem_of_cons in Hnot as [Hne Hnot].
      rewrite (Hout Hnot). now apply lookup_insert_ne.
Qed.

Lemma default_keys_distinct home : NoDup (default_items home).*1.
Proof. apply (bool_decide_unpack _). vm_compute. exact I. Qed.

Lemma default_config_lookup home k v :
  (k, v) ∈ default_items home -> default_config home !! k = Some v.
Proof.
  apply (proj1 (set_items_lookup (default_items home) ∅ k (default_keys_distinct home))).
Qed.

Lemma loaded_config_dom home config_path file :
  dom (default_config home) ⊆ dom (config (load_config home config_path file)).
Proof.
  unfold load_config. destruct file as [[e|]|e|user_config]; simpl; try reflexivity.
  pose proof (dict_update_dom user_config (default_config home)) as Hdom.
  destruct (dict_update user_config (default_config home)) as [d [e|]]; exact Hdom.
Qed.

Lemma loaded_config_has home config_path file key :
  key ∈ (default_items home).*1 ->
  is_Some (config (load_config home config_path file) !! key).
Proof.
  intros Hkey. apply elem_of_dom. apply (loaded_config_dom home config_path file).
  apply elem_of_dom. apply list_elem_of_fmap in Hkey as ([k v] & -> & Hin).
  simpl. rewrite (default_config_lookup home k v Hin). eauto.
Qed.

(** X15. Whatever the configuration file is (absent, unreadable, or any
    JSON value at all), the configuration [load_config] returns has every
    key of the defaults, so that no later [self.config[...]] can fail for a
    missing key. *)
Theorem load_config_keeps_every_key (home config_path : string)
        (file : config_file) (key : string) :
  key ∈ ["download_path"; "video_format"; "enable_notifications";
         "check_interval"; "filename_template"; "merge_output_format"] ->
  exists v, getitem (config (load_config home config_path file)) key = Return v.
Proof.
  intros Hkey. destruct (loaded_config_has home config_path file key Hkey) as [v Hv].
  exists v. unfold getitem. now rewrite Hv.
Qed.

Lemma load_config_keeps_every_key_witness :
  exists v, getitem (config (load_config "/home/u" "config.json"
                               (LoadedFile (JList [JNum "5"]))))
                    "check_interval" = Return v.
Proof.
  apply load_config_keeps_every_key.
  apply (bool_decide_unpack _). vm_compute. exact I.
Defined.

(** X16. A configuration file holding a JSON object is merged over the
    defaults: nothing is printed, each key of the file has the file's value,
    and every other key keeps its default. *)
Theorem load_config_merges_object (home config_path : string)
        (items : list (string * json)) :
  NoDup items.*1 ->
  prints (load_config home config_path (LoadedFile (JDict items))) = [] /\
  (forall k v, (k, v) ∈ items ->
               config (load_config home config_path (LoadedFile (JDict items))) !! k
               = Some v) /\
  (forall k, k ∉ items.*1 ->
             config (load_config home config_path (LoadedFile (JDict items))) !! k
             = default_config home !! k).
Proof.
  intros Hnd. simpl. split; [reflexivity|]. split.
  - intros k v. now apply (proj1 (set_items_lookup items (default_config home) k Hnd)).
  - intros k. now apply (proj2 (set_items_lookup items (default_config home) k Hnd)).
Qed.

Lemma load_config_merges_object_witness :
  config (load_config "/home/u" "config.json"
            (LoadedFile (JDict [("check_interval", JNum "0.5")]))) !! "check_interval"
  = Some (JNum "0.5").
Proof.
  destruct (load_config_merges_object "/home/u" "config.json"
              [("check_interval", JNum "0.5")]) as (_ & Hin & _).
  - apply NoDup_singleton.
  - apply Hin. now left.
Defined.

Lemma update_seq_pairs good : forall d bad rest e,
  pair_of bad = Raise e ->
  update_seq (((fun kv => JList [JStr kv.1; kv.2]) <$> good) ++ bad :: rest) d
  = (set_items good d, Some e).
Proof.
  induction good as [|[k v] good IH]; intros d bad rest e Hbad; simpl.
  - now rewrite Hbad.
  - now apply IH.
Qed.

(** X17. A configuration file holding a JSON list is applied item by
    item: when its first items are [key, value] pairs and a later item is
    no pair, the error is printed with the words "Using defaults", and yet
    the pairs before it stay in the configuration that is returned. *)
Theorem load_config_keeps_partial_update (home config_path : string)
        (good : list (string * json)) (bad : json) (rest : list json) (e : exn) :
  pair_of bad = Raise e ->
  load_config home config_path
    (LoadedFile (JList (((fun kv => JList [JStr kv.1; kv.2]) <$> good) ++ bad :: rest)))
  = Loaded (set_items good (default_config home)) [Print_error_loading e] None.
Proof.
  intros Hbad. unfold load_config, dict_update.
  now rewrite (update_seq_pairs good (default_config home) bad rest e Hbad).
Qed.

Lemma load_config_keeps_partial_update_witness :
  load_config "/home/u" "config.json"
    (LoadedFile (JList [JList [JStr "download_path"; JStr "/tmp"]; JNull]))
  = Loaded (<["download_path" := JStr "/tmp"]> (default_config "/home/u"))
           [Print_error_loading TypeError] None.
Proof.
  exact (load_config_keeps_partial_update "/home/u" "config.json"
           [("download_path", JStr "/tmp")] JNull [] TypeError eq_refl).
Defined.

(** X19. With the configuration [load_config] returns, building
    [ydl_opts] never fails for a missing key. It gives the options, with
    [outtmpl] the join of the two paths, when ['download_path'] and
    ['filename_template'] are strings, and raises [TypeError] when one of
    them is not. *)
Theorem ydl_opts_fail_on_types_only (home config_path : string) (file : config_file) :
  match config (load_config home config_path file) !! "download_path",
        config (load_config home config_path file) !! "filename_template" with
  | Some (JStr download_path), Some (JStr filename_template) =>
      exists o, build_ydl_opts (config (load_config home config_path file)) = Return o /\
                opt_outtmpl o = path_join download_path [filename_template]
  | _, _ =>
      build_ydl_opts (config (load_config home config_path file)) = Raise TypeError
  end.
Proof.
  assert (Hkeys : forall key,
    key ∈ ["video_format"; "download_path"; "filename_template"; "merge_output_format"] ->
    is_Some (config (load_config home config_path file) !! key)).
  { intros key Hkey. apply loaded_config_has. simpl.
    repeat (apply elem_of_cons in Hkey as [-> | Hkey];
            [apply (bool_decide_unpack _); vm_compute; exact I|]).
    now apply elem_of_nil in Hkey. }
  destruct (Hkeys "video_format") as [vf Hvf]; [set_solver|].
  destruct (Hkeys "download_path") as [dp Hdp]; [set_solver|].
  destruct (Hkeys "filename_template") as [ft Hft]; [set_solver|].
  destruct (Hkeys "merge_output_format") as [mo Hmo]; [set_solver|].
  unfold build_ydl_opts, getitem. rewrite Hvf, Hdp, Hft, Hmo. simpl.
  destruct dp, ft; simpl; eauto.
Qed.

(** ** The pause between two looks at the clipboard *)

Lemma monitor_body_returns sleep_number config p d :
  sleep_interval sleep_number config = Return tt ->
  match monitor_body sleep_number config p d with
  | (d', None) => d' = monitor_tick p d
  | (d', Some e) => emit (Log_monitor_error e) d' = monitor_tick p d
  end.
Proof.
  intros Hs. unfold monitor_body, monitor_tick. rewrite Hs.
  destruct p as [c|e]; [|reflexivity].
  destruct (negb (c =? last_clipboard d)%string); [|reflexivity].
  destruct (is_youtube_url (PyStr c)) as [[url|]|e]; try reflexivity.
  now destruct (truthy (PyStr url)).
Qed.

Lemma monitor_body_raises sleep_number config p d e :
  sleep_interval sleep_number config = Raise e ->
  exists d' e', monitor_body sleep_number config p d = (d', Some e').
Proof.
  intros Hs. unfold monitor_body. rewrite Hs.
  destruct p as [c|e0]; [|eauto].
  destruct (negb (c =? last_clipboard d)%string); [|eauto].
  destruct (is_youtube_url (PyStr c)) as [[url|]|e0]; eauto.
  destruct (truthy (PyStr url)); eauto.
Qed.

(** X20. With a pause [time.sleep] accepts, no pass of the monitor loop
    leaves the loop, whatever the clipboard gives, a failing read
    included; and what the pass does to the state is [monitor_tick]. *)
Theorem read_error_never_leaves_the_loop (sleep_number : string -> option exn)
        (config : gmap string json) (p : paste) (d : downloader) :
  sleep_interval sleep_number config = Return tt ->
  monitor_pass sleep_number config p d = (monitor_tick p d, None).
Proof.
  intros Hs. unfold monitor_pass.
  pose proof (monitor_body_returns sleep_number config p d Hs) as Hb.
  destruct (monitor_body sleep_number config p d) as [d' [e|]].
  - rewrite Hs. now rewrite Hb.
  - now rewrite Hb.
Qed.

Lemma read_error_never_leaves_the_loop_witness :
  monitor_pass (fun _ => None) (default_config "/home/u")
               (PasteError (Error "no clipboard")) detected
  = (monitor_tick (PasteError (Error "no clipboard")) detected, None).
Proof.
  apply read_error_never_leaves_the_loop. vm_compute. reflexivity.
Defined.

(** X21. With a ['check_interval'] [time.sleep] refuses, the first pass
    of the monitor loop is the last: the handler that logs the error sleeps
    again, the same exception is raised outside the [try], and it leaves
    the loop, whatever the clipboard gives. [load_config] lets such a value
    through, a quoted number for one. *)
Theorem refused_interval_leaves_the_loop (sleep_number : string -> option exn)
        (config : gmap string json) (p : paste) (d : downloader) (e : exn) :
  sleep_interval sleep_number config = Raise e ->
  exists d', monitor_pass sleep_number config p d = (d', Some e) /\
             exists e', last (log d') = Some (Log_monitor_error e').
Proof.
  intros Hs. unfold monitor_pass.
  destruct (monitor_body_raises sleep_number config p d e Hs) as (d' & e' & ->).
  rewrite Hs. eexists. split; [reflexivity|].
  exists e'. simpl. apply last_snoc.
Qed.

Lemma refused_interval_leaves_the_loop_witness :
  exists d',
    monitor_pass (fun _ => None)
      (config (load_config "/home/u" "config.json"
                 (LoadedFile (JDict [("check_interval", JStr "2")]))))
      (Pasted "hello") detected
    = (d', Some TypeError) /\
    exists e', last (log d') = Some (Log_monitor_error e').
Proof.
  apply refused_interval_leaves_the_loop. vm_compute. reflexivity.
Defined.

(** ** Options that cannot be built *)

Lemma run_with_buildable config o tr :
  build_ydl_opts config = Return o ->
  forall d, run_with config tr d = run tr d.
Proof.
  intros Ho. induction tr as [|a tr IH]; intros d; [reflexivity|]. simpl.
  assert (Ha : exec_with config a d = exec a d).
  { destruct a as [p| |out]; try reflexivity. simpl. unfold worker_step_with, worker_step.
    rewrite Ho. now destruct (worker d). }
  rewrite Ha. destruct (exec a d); [apply IH | reflexivity].
Qed.

Lemma show_notification_fields n d :
  is_downloading (show_notification n d) = is_downloading d /\
  current_download (show_notification n d) = current_download d /\
  worker (show_notification n d) = worker d /\
  forall ev, ev ∈ log d -> ev ∈ log (show_notification n d).
Proof.
  unfold show_notification. destruct (negb (notifications d)); simpl.
  - repeat split; auto.
  - repeat split; auto. intros ev Hev. apply elem_of_app. now left.
Qed.

Lemma wedged_step config e a d d' :
  build_ydl_opts config = Raise e ->
  wedged e d -> exec_with config a d = Some d' -> wedged e d'.
Proof.
  unfold wedged. intros He (Hi & Hc & Hl & Hw) Ha. destruct a as [p| |o]; simpl in Ha.
  - injection Ha as <-.
    destruct (monitor_tick_log p d) as (evs & Hlog & _).
    destruct (monitor_tick_effect p d) as ((_ & Hi' & Hc' & Hw' & _) & _).
    rewrite Hi', Hc', Hw', Hlog. repeat split; auto. apply elem_of_app. now left.
  - unfold worker_step_with, worker_step in Ha.
    destruct (worker d) as [|[url|]|url|url|url|url esc|url esc| |] eqn:Hwd;
      try contradiction.
    + destruct (download_queue d) as [|item rest]; [discriminate|].
      injection Ha as <-. simpl. repeat split; auto.
    + injection Ha as <-. simpl. repeat split; auto.
    + injection Ha as <-. simpl. repeat split; auto.
    + injection Ha as <-. simpl. repeat split; auto.
    + rewrite He in Ha. injection Ha as <-. simpl.
      destruct (show_notification_fields (N_started (qsize d)) (emit (Log_starting url) d))
        as (-> & -> & _ & _). simpl. repeat split; auto.
      apply elem_of_app. right. now left.
    + discriminate.
  - unfold download_returns in Ha.
    destruct (worker d); try contradiction; discriminate.
Qed.

Lemma run_with_preserves config (P : downloader -> Prop) :
  (forall a d d', P d -> exec_with config a d = Some d' -> P d') ->
  forall tr d d', P d -> run_with config tr d = Some d' -> P d'.
Proof.
  intros Hstep. induction tr as [|a tr IH]; intros d d' HP; simpl.
  - now intros [= <-].
  - destruct (exec_with config a d) as [d1|] eqn:Ha; [|discriminate].
    apply IH. now apply (Hstep a d).
Qed.

(** X22. The release of the current download is not unconditional when
    [ydl_opts] cannot be built (a ['filename_template'] that is no string):
    the exception is raised after lines 209-211 have set the two fields and
    before the [try] whose [finally] clears them. The worker logs the error
    and goes on, [is_downloading] and [current_download] stay set for ever
    after, and no download operation is ever running. *)
Theorem unbuildable_options_leave_the_flags_set (config : gmap string json) (e : exn)
        (d d' : downloader) (url : string) (tr : list action) :
  build_ydl_opts config = Raise e ->
  worker d = WPopped (Some url) ->
  run_with config (Work :: Work :: Work :: tr) d = Some d' ->
  is_downloading d' = true /\ is_Some (current_download d') /\
  Log_worker_error e ∈ log d' /\
  forall o, download_returns o d' = None.
Proof.
  intros He Hw Hrun.
  assert (Hwedged : wedged e d').
  { cbn [run_with exec_with] in Hrun.
    set (d1 := set_worker (WFlagged url) (set_current true (current_download d) d)).
    set (d2 := set_worker (WEntered url)
                 (set_current (is_downloading d1) (Some (display_name url)) d1)).
    set (d3 := set_worker WGet
                 (emit (Log_worker_error e)
                    (show_notification (N_started (qsize d2))
                       (emit (Log_starting url) d2)))).
    assert (H1 : worker_step_with config d = Some d1)
      by (unfold worker_step_with, worker_step; now rewrite Hw).
    assert (H2 : worker_step_with config d1 = Some d2) by reflexivity.
    assert (H3 : worker_step_with config d2 = Some d3)
      by (unfold worker_step_with; simpl; now rewrite He).
    rewrite H1, H2, H3 in Hrun. revert Hrun.
    apply (run_with_preserves config (wedged e)).
    { intros a d4 d5. now apply wedged_step. }
    unfold wedged, d3. simpl.
    destruct (show_notification_fields (N_started (qsize d2)) (emit (Log_starting url) d2))
      as (-> & -> & _ & _).
    simpl. repeat split; eauto. apply elem_of_app. right. now left. }
  destruct Hwedged as (Hi & Hc & Hl & Hwk). repeat split; auto.
  intros o. unfold download_returns. now destruct (worker d').
Qed.

Lemma unbuildable_options_leave_the_flags_set_witness :
  exists d',
    run_with (config (load_config "/home/u" "config.json"
                        (LoadedFile (JDict [("filename_template", JNull)]))))
             [Work; Work; Work]
             (set_worker (WPopped (Some watch_link)) (init true)) = Some d' /\
    is_downloading d' = true /\ is_Some (current_download d') /\
    Log_worker_error TypeError ∈ log d'.
Proof.
  assert (He : build_ydl_opts
                 (config (load_config "/home/u" "config.json"
                            (LoadedFile (JDict [("filename_template", JNull)]))))
               = Raise TypeError) by (vm_compute; reflexivity).
  destruct (run_with _ [Work; Work; Work]
              (set_worker (WPopped (Some watch_link)) (init true))) as [d'|] eqn:Hrun;
    [|vm_compute in Hrun; discriminate].
  exists d'. split; [reflexivity|].
  destruct (unbuildable_options_leave_the_flags_set _ TypeError
              (set_worker (WPopped (Some watch_link)) (init true)) d' watch_link []
              He eq_refl Hrun) as (Hi & Hc & Hl & _).
  repeat split; assumption.
Defined.

(** * The two threads, move by move *)

(** ** Moves and invariants *)

Lemma play_app sn cfg tr1 tr2 s :
  play sn cfg (tr1 ++ tr2)%list s
  = match play sn cfg tr1 s with
    | Some s' => play sn cfg tr2 s'
    | None => None
    end.
Proof.
  revert s. induction tr1 as [|mv tr1 IH]; intros s; simpl; [reflexivity|].
  destruct (next sn cfg mv s); [apply IH | reflexivity].
Qed.

Lemma play_preserves sn cfg (P : program -> Prop) :
  (forall mv s s', P s -> next sn cfg mv s = Some s' -> P s') ->
  forall tr s s', P s -> play sn cfg tr s = Some s' -> P s'.
Proof.
  intros Hstep. induction tr as [|mv tr IH]; intros s s' HP; simpl.
  - now intros [= <-].
  - destruct (next sn cfg mv s) as [s1|] eqn:Hmv; [|discriminate].
    apply IH. now apply (Hstep mv s).
Qed.

(** The worker's step with the configuration in view is the step of
    [worker_step], but for the exception of lines 221-240. *)
Lemma worker_step_with_cases cfg d d' :
  worker_step_with cfg d = Some d' ->
  (worker_step d = Some d' /\
   (forall url, worker d = WEntered url -> buildable cfg = true)) \/
  (exists url e,
      worker d = WEntered url /\ build_ydl_opts cfg = Raise e /\
      d' = set_worker WGet
             (emit (Log_worker_error e)
                (show_notification (N_started (qsize d))
                   (emit (Log_starting url) d)))).
Proof.
  unfold worker_step_with, worker_step, buildable.
  destruct (worker d) as [|[url|]|url|url|url|url esc|url esc| |] eqn:Hw;
    try (intros H; left; split; [exact H | intros u; discriminate]).
  destruct (build_ydl_opts cfg) as [o|e].
  - intros H. left. split; [exact H | reflexivity].
  - intros [= <-]. right. exists url, e. auto.
Qed.

Lemma lineup_length d :
  length (lineup d)
  = length (started (log d)) + length (in_hand (worker d)) + qsize d.
Proof. unfold lineup, qsize. rewrite !length_app, length_fmap. lia. Qed.

(** A step of the worker moves an item along the line and changes neither
    the line nor the ledger. *)
Lemma worker_lineup cfg d d' :
  worker_step_with cfg d = Some d' ->
  worker d <> WPopped None ->
  lineup d' = lineup d /\ enqueued (log d') = enqueued (log d) /\
  downloaded_urls d' = downloaded_urls d.
Proof.
  intros Hstep Hnone. unfold lineup.
  destruct (worker_step_with_cases _ _ _ Hstep) as [[Hs _] | (url & e & Hw & _ & ->)].
  - destruct (worker_step_effect _ _ Hs) as ((_ & Hl & _ & He) & Hw).
    split; [|now split].
    destruct (worker d) as [|[url|]|url|url|url|url esc|url esc| |];
      try contradiction; simpl in *.
    + destruct Hw as (item & -> & -> & _ & _ & ->). reflexivity.
    + destruct Hw as (-> & -> & _ & _ & ->). reflexivity.
    + destruct Hw as (-> & -> & _ & _ & ->). reflexivity.
    + destruct Hw as (-> & -> & _ & _ & ->). simpl.
      now rewrite fmap_app, <- List.app_assoc.
    + destruct Hw as (-> & -> & _ & _ & ->). reflexivity.
    + destruct Hw as (-> & -> & _ & _ & ->). now destruct esc.
    + destruct Hw as (-> & -> & _ & _ & ->). reflexivity.
  - rewrite Hw. simpl.
    destruct (show_notification_frame (N_started (qsize d)) (emit (Log_starting url) d))
      as (_ & Hl & _ & Hq & _ & _ & _ & _ & Hs & He). cbv zeta in *.
    rewrite !started_app, !enqueued_app, Hs, He, Hq, Hl. simpl.
    rewrite started_app, enqueued_app. simpl.
    rewrite !List.app_nil_r, fmap_app, <- List.app_assoc. auto.
Qed.

Lemma returns_lineup o d d' :
  download_returns o d = Some d' ->
  lineup d' = lineup d /\ enqueued (log d') = enqueued (log d) /\
  downloaded_urls d' = downloaded_urls d.
Proof.
  intros H. unfold lineup.
  destruct (download_returns_effect _ _ _ H)
    as (url & Hw & Hw' & _ & Hl & _ & Hq & _ & _ & _ & Hs & He).
  rewrite Hw, Hw', Hq, Hs. auto.
Qed.

(** What the monitor's first step leaves alone. *)
Lemma monitor_reads_frame p d :
  let s := monitor_reads p d in
  worker (shared s) = worker d /\ is_downloading (shared s) = is_downloading d /\
  current_download (shared s) = current_download d /\
  download_queue (shared s) = download_queue d /\
  downloaded_urls (shared s) = downloaded_urls d /\
  started (log (shared s)) = started (log d) /\
  enqueued (log (shared s)) = enqueued (log d) /\
  unlogged (monitor s) = [] /\ added (monitor s) = [].
Proof.
  unfold monitor_reads. destruct p as [c|e].
  - destruct (negb (c =? last_clipboard d)%string); [|simpl; auto 10].
    cbv zeta. destruct (is_youtube_url (PyStr c)) as [[url|]|e];
      [destruct (truthy (PyStr url))| |]; simpl;
      rewrite ?started_app, ?enqueued_app; simpl; rewrite ?List.app_nil_r; auto 10.
  - simpl. rewrite started_app, enqueued_app. simpl. rewrite !List.app_nil_r. auto 10.
Qed.

(** What the monitor's later steps leave alone. *)
Lemma monitor_move_frame sn cfg m d s :
  monitor_move sn cfg m d = Some s ->
  worker (shared s) = worker d /\ is_downloading (shared s) = is_downloading d /\
  current_download (shared s) = current_download d /\
  started (log (shared s)) = started (log d).
Proof.
  unfold monitor_move.
  destruct m as [|url|url|url|url n|url n first|n|nt| | |]; try discriminate.
  - case_bool_decide; intros [= <-]; simpl; rewrite ?started_app; simpl;
      rewrite ?List.app_nil_r; auto.
  - intros [= <-]. simpl. auto.
  - intros [= <-]. simpl. auto.
  - intros [= <-]. simpl. auto.
  - destruct first; intros [= <-]; simpl; rewrite started_app; simpl;
      rewrite List.app_nil_r; auto.
  - intros [= <-]. simpl. auto.
  - intros [= <-]. simpl.
    destruct (show_notification_frame nt d) as (_ & _ & _ & _ & _ & ? & ? & ? & ? & _).
    auto.
  - destruct (sleep_interval sn cfg); intros [= <-]; simpl; rewrite ?started_app; simpl;
      rewrite ?List.app_nil_r; auto.
  - destruct (sleep_interval sn cfg); intros [= <-]; simpl; auto.
Qed.

Lemma no_poison_in_line (l : list string) (d : downloader) :
  Some <$> l = lineup d -> worker d <> WPopped None.
Proof.
  unfold lineup. intros Hl Hw. rewrite Hw in Hl. simpl in Hl.
  assert (Hin : None ∈ Some <$> l).
  { rewrite Hl. apply elem_of_app. right. now left. }
  now apply list_elem_of_fmap in Hin as (x & [=] & _).
Qed.

Lemma orderly_next sn cfg mv s s' :
  orderly s -> next sn cfg mv s = Some s' -> orderly s'.
Proof.
  unfold orderly, put_order. destruct s as [m d]. simpl. intros [Hf Ha] Hmv.
  destruct mv as [p| | |o]; simpl in Hmv.
  - destruct m; try discriminate. injection Hmv as <-.
    destruct (monitor_reads_frame p d) as (Hw & _ & _ & Hq & Hl & Hs & He & Hu & Had).
    cbv zeta in *. unfold lineup in *. simpl in *.
    rewrite Hw, Hq, Hl, Hs, He, Hu, Had. auto.
  - unfold monitor_move in Hmv. unfold lineup in *.
    destruct m as [|url|url|url|url n|url n first|n|nt| | |]; try discriminate;
      simpl in *; rewrite ?List.app_nil_r in *.
    + case_bool_decide as Hin; injection Hmv as <-; simpl;
        rewrite ?started_app, ?enqueued_app; simpl; rewrite ?List.app_nil_r.
      * auto.
      * split; [exact Hf|].
        rewrite size_union, size_singleton by (now apply disjoint_singleton_l).
        lia.
    + injection Hmv as <-. simpl. split.
      * rewrite fmap_app, Hf. simpl. now rewrite <- !List.app_assoc.
      * rewrite !length_app in *. simpl. lia.
    + injection Hmv as <-. simpl. auto.
    + injection Hmv as <-. simpl. auto.
    + destruct first; injection Hmv as <-; simpl;
        rewrite started_app, enqueued_app; simpl; rewrite !List.app_nil_r; auto.
    + injection Hmv as <-. simpl. rewrite List.app_nil_r. auto.
    + injection Hmv as <-. simpl.
      destruct (show_notification_frame nt d) as (_ & Hl & _ & Hq & _ & _ & _ & Hw & Hs & He).
      cbv zeta in *. rewrite Hl, Hq, Hw, Hs, He, List.app_nil_r. auto.
    + destruct (sleep_interval sn cfg); injection Hmv as <-; simpl;
        rewrite ?started_app, ?enqueued_app; simpl; rewrite ?List.app_nil_r; auto.
    + destruct (sleep_interval sn cfg); injection Hmv as <-; simpl;
        rewrite ?List.app_nil_r; auto.
  - destruct (worker_step_with cfg d) as [d'|] eqn:Hstep; [|discriminate].
    injection Hmv as <-. simpl.
    destruct (worker_lineup cfg d d' Hstep) as (-> & -> & ->); [|auto].
    now apply (no_poison_in_line _ d Hf).
  - destruct (download_returns o d) as [d'|] eqn:Hret; [|discriminate].
    injection Hmv as <-. simpl.
    destruct (returns_lineup o d d' Hret) as (-> & -> & ->). auto.
Qed.

Lemma orderly_start notify : orderly (start notify).
Proof. split; reflexivity. Qed.

Lemma attainable_orderly sn cfg s : attainable sn cfg s -> orderly s.
Proof.
  intros (notify & tr & Hplay).
  exact (play_preserves sn cfg orderly (orderly_next sn cfg) tr _ _
           (orderly_start notify) Hplay).
Qed.

Lemma tracks_same cfg d d' :
  worker d' = worker d -> is_downloading d' = is_downloading d ->
  current_download d' = current_download d -> tracks cfg d -> tracks cfg d'.
Proof.
  unfold tracks, flags_ok. intros -> -> ->. auto.
Qed.

Lemma tracks_next sn cfg mv s s' :
  tracks cfg (shared s) -> next sn cfg mv s = Some s' -> tracks cfg (shared s').
Proof.
  destruct s as [m d]. simpl. intros Ht Hmv.
  destruct mv as [p| | |o]; simpl in Hmv.
  - destruct m; try discriminate. injection Hmv as <-.
    destruct (monitor_reads_frame p d) as (Hw & Hi & Hc & _).
    now apply (tracks_same cfg d).
  - destruct (monitor_move_frame _ _ _ _ _ Hmv) as (Hw & Hi & Hc & _).
    now apply (tracks_same cfg d).
  - destruct (worker_step_with cfg d) as [d'|] eqn:Hstep; [|discriminate].
    injection Hmv as <-. simpl. unfold tracks in *.
    destruct (worker_step_with_cases _ _ _ Hstep)
      as [[Hs Hb] | (url & e & Hw & He & ->)].
    + destruct (buildable cfg) eqn:Hbuild.
      * now apply (flags_ok_step Work d d').
      * destruct (worker_step_effect _ _ Hs) as (_ & Hw).
        destruct (worker d) as [|[url|]|url|url|url|url esc|url esc| |];
          try contradiction.
        -- now destruct Hw as (item & _ & -> & _).
        -- now destruct Hw as (-> & _).
        -- now destruct Hw as (-> & _).
        -- now destruct Hw as (-> & _ & _ & -> & _).
        -- discriminate (Hb url eq_refl).
    + unfold buildable. now rewrite He.
  - destruct (download_returns o d) as [d'|] eqn:Hret; [|discriminate].
    injection Hmv as <-. simpl. unfold tracks in *.
    destruct (buildable cfg).
    + now apply (flags_ok_step (Returns o) d d').
    + destruct (download_returns_effect _ _ _ Hret) as (url & Hw & _).
      now rewrite Hw in Ht.
Qed.

Lemma tracks_start cfg notify : tracks cfg (shared (start notify)).
Proof. unfold tracks. destruct (buildable cfg); [split; reflexivity | exact I]. Qed.

Lemma attainable_tracks sn cfg s : attainable sn cfg s -> tracks cfg (shared s).
Proof.
  intros (notify & tr & Hplay).
  exact (play_preserves sn cfg (fun x => tracks cfg (shared x)) (tracks_next sn cfg) tr _ _
           (tracks_start cfg notify) Hplay).
Qed.

(** ** The worker left to itself *)










(** ** First in, first out *)



(** ** The current download *)

(** C4, amended. In every state the program gets to, whatever the
    configuration and however the two threads interleave,
    [current_download] holds at most one value, which follows the worker:
    while the worker executes the download of a link, from the assignment of
    line 211 to the one of line 274, it is the link's first fifty characters
    followed by three dots (not the link, and no start time); and with a
    configuration from which [ydl_opts] can be built it is [None] at every
    other moment. *)
Theorem current_download_tracks_worker (sleep_number : string -> option exn)
        (config : gmap string json) (s : program) :
  attainable sleep_number config s ->
  (forall url, in_flight (worker (shared s)) = Some url ->
               current_download (shared s) = Some (Str.slice_to 50 url ++ "...")) /\
  (buildable config = true -> in_flight (worker (shared s)) = None ->
   current_download (shared s) = None).
Proof.
  intros Hs. pose proof (attainable_tracks _ _ _ Hs) as Ht.
  unfold tracks, flags_ok in Ht. destruct (buildable config).
  - destruct Ht as [_ Hc]. rewrite Hc. split.
    + now intros url ->.
    + now intros _ ->.
  - split; [|discriminate].
    intros url Hu. destruct (worker (shared s)); try discriminate; try contradiction.
    injection Hu as <-. exact Ht.
Qed.

Lemma current_download_tracks_worker_witness :
  in_flight (worker (shared middle)) = Some watch_link /\
  current_download (shared middle) = Some "https://www.youtube.com/watch?v=abc123XYZ9..." /\
  in_flight (worker (shared between_add_and_put)) = None /\
  current_download (shared between_add_and_put) = None.
Proof.
  destruct (current_download_tracks_worker sleeps plain_config middle) as [Hset _].
  { exists true, busy_moves. vm_compute. reflexivity. }
  destruct (current_download_tracks_worker sleeps plain_config between_add_and_put)
    as [_ Hclear].
  { exists true, [Reads (Pasted watch_link); Monitor]. vm_compute. reflexivity. }
  split; [vm_compute; reflexivity|]. split.
  - rewrite (Hset watch_link); [reflexivity | vm_compute; reflexivity].
  - split; [vm_compute; reflexivity|].
    apply Hclear; vm_compute; reflexivity.
Defined.

(** ** The release of the current download *)

(** C3 fails on the code: lines 209-211 set the two fields before the
    [try] of line 242, and lines 221-240, which build [ydl_opts], stand
    between the two. With a configuration file that sets
    ['filename_template'] to [null], a link seen on the clipboard is popped,
    the two fields are set, [os.path.join] raises, line 204 logs the error,
    and the worker is back at [get()] with both fields still set. *)
Theorem release_skipped_before_try :
  exists s,
    play sleeps null_template one_link (start true) = Some s /\
    worker (shared s) = WGet /\ download_queue (shared s) = [] /\
    started (log (shared s)) = [short_link] /\
    last (log (shared s)) = Some (Log_worker_error TypeError) /\
    is_downloading (shared s) = true /\
    current_download (shared s) = Some "https://youtu.be/abc123XYZ9...".
Proof. eexists. split; [vm_compute; reflexivity|]. repeat split. Qed.

(** ** The poison value *)

Lemma dead_stays_dead_play sn cfg tr s s' :
  worker (shared s) = WDead -> play sn cfg tr s = Some s' ->
  worker (shared s') = WDead /\ started (log (shared s')) = started (log (shared s)).
Proof.
  intros Hw. apply (play_preserves sn cfg
    (fun x => worker (shared x) = WDead /\
              started (log (shared x)) = started (log (shared s)))); [|now split].
  intros mv [m d] s2 [H1 Hs] Hmv. simpl in *.
  destruct mv as [p| | |o]; simpl in Hmv.
  - destruct m; try discriminate. injection Hmv as <-.
    destruct (monitor_reads_frame p d) as (-> & _ & _ & _ & _ & -> & _). now split.
  - destruct (monitor_move_frame _ _ _ _ _ Hmv) as (-> & _ & _ & ->). now split.
  - unfold worker_step_with, worker_step in Hmv. now rewrite H1 in Hmv.
  - unfold download_returns in Hmv. now rewrite H1 in Hmv.
Qed.

(** C6, as the claim has it, fails: with ['filename_template'] set to
    [null] in the configuration file, the worker pops a link, enters
    [_download_video] for it and is back at [get()] on an empty queue
    without having called the download operation, which it calls at
    [WRunning] and nowhere else. *)
Lemma popped_link_without_download :
  exists s0 s1 s2 s3 s4,
    play sleeps null_template (Reads (Pasted short_link) :: first_accepted) (start true)
    = Some s0 /\
    next sleeps null_template Worker s0 = Some s1 /\
    next sleeps null_template Worker s1 = Some s2 /\
    next sleeps null_template Worker s2 = Some s3 /\
    next sleeps null_template Worker s3 = Some s4 /\
    (worker ∘ shared) <$> [s0; s1; s2; s3; s4]
    = [WGet; WPopped (Some short_link); WFlagged short_link; WEntered short_link; WGet] /\
    download_queue (shared s4) = [] /\
    next sleeps null_template Worker s4 = None /\
    last (log (shared s4)) = Some (Log_worker_error TypeError).
Proof.
  do 5 eexists. split; [vm_compute; reflexivity|].
  split; [vm_compute; reflexivity|]. split; [vm_compute; reflexivity|].
  split; [vm_compute; reflexivity|]. split; [vm_compute; reflexivity|].
  repeat split.
Qed.

(** C6, amended. The queue takes the poison value [None], which no link
    equals. When [get()] hands the worker [None], the worker ends: it cannot
    move any more, the download operation cannot come back to it, it begins
    no download later, and it has changed neither the ledger, the rest of
    the queue, the current-download fields nor the log. When [get()] hands
    it a link, it enters [_download_video] for that link (the record of line
    215 is written); there it calls the download operation for the link
    when [ydl_opts] can be built from the configuration, and when
    [ydl_opts] cannot be built it is back at [get()] with the exception
    logged at line 205 and no download operation called. *)
Theorem poison_pill (sleep_number : string -> option exn) (config : gmap string json)
        (s : program) (item : option string) (q : list (option string)) :
  worker (shared s) = WGet ->
  download_queue (shared s) = item :: q ->
  download_queue (put None (shared s)) = (download_queue (shared s) ++ [None])%list /\
  (forall url, put (Some url) (shared s) <> put None (shared s)) /\
  match item with
  | None =>
      exists s',
        play sleep_number config [Worker; Worker] s = Some s' /\
        worker (shared s') = WDead /\
        next sleep_number config Worker s' = None /\
        (forall o, next sleep_number config (Comes o) s' = None) /\
        downloaded_urls (shared s') = downloaded_urls (shared s) /\
        download_queue (shared s') = q /\
        is_downloading (shared s') = is_downloading (shared s) /\
        current_download (shared s') = current_download (shared s) /\
        log (shared s') = log (shared s) /\
        (forall tr s'',
            play sleep_number config tr s' = Some s'' ->
            worker (shared s'') = WDead /\
            started (log (shared s'')) = started (log (shared s)))
  | Some url =>
      exists s',
        play sleep_number config [Worker; Worker; Worker; Worker] s = Some s' /\
        started (log (shared s')) = (started (log (shared s)) ++ [url])%list /\
        download_queue (shared s') = q /\
        match build_ydl_opts config with
        | Return _ => worker (shared s') = WRunning url
        | Raise e =>
            worker (shared s') = WGet /\
            last (log (shared s')) = Some (Log_worker_error e) /\
            (forall o, next sleep_number config (Comes o) s' = None)
        end
  end.
Proof.
  intros Hw Hq. split; [reflexivity|]. split.
  - intros url H. apply (f_equal download_queue) in H. simpl in H.
    apply app_inv_head in H. discriminate.
  - destruct s as [m [n led lc qu uf isd cur w lg]]. simpl in Hw, Hq. subst w qu.
    destruct item as [url|].
    + unfold play, next, worker_step_with, worker_step. simpl.
      destruct (build_ydl_opts config) as [opts|e]; destruct n; simpl;
        (eexists; split; [reflexivity|]); simpl;
        rewrite ?started_app; simpl; rewrite ?started_app; simpl;
        rewrite ?List.app_nil_r, ?last_snoc; auto.
    + eexists. split; [reflexivity|]. simpl. repeat (split; [reflexivity|]).
      intros tr s'' Hplay.
      apply dead_stays_dead_play in Hplay; [exact Hplay | reflexivity].
Qed.

Lemma poison_pill_witness :
  (exists s', play sleeps plain_config [Worker; Worker]
                (Program MPaste (put None (init true))) = Some s' /\
              worker (shared s') = WDead /\ download_queue (shared s') = [] /\
              log (shared s') = []) /\
  (exists s', play sleeps plain_config [Worker; Worker; Worker; Worker]
                (Program MPaste (put (Some short_link) (init true))) = Some s' /\
              worker (shared s') = WRunning short_link).
Proof.
  split.
  - destruct (poison_pill sleeps plain_config (Program MPaste (put None (init true)))
                None [] eq_refl eq_refl)
      as (_ & _ & s' & Hplay & Hw & _ & _ & _ & Hq & _ & _ & Hl & _).
    exists s'. auto.
  - destruct (poison_pill sleeps plain_config
                (Program MPaste (put (Some short_link) (init true)))
                (Some short_link) [] eq_refl eq_refl)
      as (_ & _ & s' & Hplay & _ & _ & Hw).
    exists s'. split; [exact Hplay|]. exact Hw.
Defined.

(** ** The ledger, link by link *)

(** X6. Every accepted link is in exactly one place, at every moment and
    however the two threads interleave: the size of the ledger is the number
    of downloads begun, plus the item the worker has popped and not yet
    begun, plus the depth of the queue, plus the link that line 169 has
    added to the ledger and line 172 has not yet put on the queue. *)
Theorem ledger_accounting (sleep_number : string -> option exn)
        (config : gmap string json) (s : program) :
  attainable sleep_number config s ->
  size (downloaded_urls (shared s))
  = length (started (log (shared s))) + length (in_hand (worker (shared s)))
    + qsize (shared s) + length (added (monitor s)).
Proof.
  intros Hs. destruct (attainable_orderly _ _ _ Hs) as [_ Ha].
  now rewrite Ha, lineup_length.
Qed.

Lemma ledger_accounting_witness :
  (size (downloaded_urls (shared between_add_and_put)) = 1 /\
   qsize (shared between_add_and_put) = 0 /\
   added (monitor between_add_and_put) = [watch_link]) /\
  (size (downloaded_urls (shared middle)) = 3 /\
   started (log (shared middle)) = [watch_link] /\
   qsize (shared middle) = 2).
Proof.
  pose proof (ledger_accounting sleeps plain_config between_add_and_put) as H1.
  pose proof (ledger_accounting sleeps plain_config middle) as H2.
  split.
  - split; [|split; vm_compute; reflexivity].
    rewrite H1; [vm_compute; reflexivity|].
    exists true, [Reads (Pasted watch_link); Monitor]. vm_compute. reflexivity.
  - split; [|split; vm_compute; reflexivity].
    rewrite H2; [vm_compute; reflexivity|].
    exists true, busy_moves. vm_compute. reflexivity.
Defined.

(** ** A pass of the monitor in one piece *)

(** [monitor_tick] is the pass of the monitor played move by move with no
    move of the worker in between, the pause being one [time.sleep]
    accepts. *)
Lemma tick_in_moves sn cfg p d :
  sleep_interval sn cfg = Return tt ->
  exists n,
    play sn cfg (Reads p :: repeat Monitor n) (Program MPaste d)
    = Some (Program MPaste (monitor_tick p d)).
Proof.
  intros Hs. unfold monitor_tick. cbn [play next monitor shared].
  unfold monitor_reads. destruct p as [c|e].
  - destruct (negb (c =? last_clipboard d)%string).
    + cbv zeta. destruct (is_youtube_url (PyStr c)) as [[url|]|e].
      * destruct (truthy (PyStr url)).
        -- unfold add_to_queue.
           set (d1 := emit (Log_detected url) (set_last_clipboard c d)).
           case_bool_decide as Hin.
           ++ exists 2. cbn [repeat play next monitor shared monitor_move].
              rewrite bool_decide_true by exact Hin.
              cbn [play next monitor shared monitor_move]. now rewrite Hs.
           ++ cbv zeta.
              destruct (Nat.eqb _ 1 && negb _) eqn:Hfirst.
              ** exists 7. cbn [repeat play next monitor shared monitor_move].
                 rewrite bool_decide_false by exact Hin.
                 cbn [play next monitor shared monitor_move].
                 change (is_downloading (put (Some url)
                           (set_downloaded_urls ({[url]} ∪ downloaded_urls d1) d1)))
                   with (is_downloading d1) in *.
                 rewrite Hfirst. cbn [play next monitor shared monitor_move].
                 now rewrite Hs.
              ** exists 8. cbn [repeat play next monitor shared monitor_move].
                 rewrite bool_decide_false by exact Hin.
                 cbn [play next monitor shared monitor_move].
                 change (is_downloading (put (Some url)
                           (set_downloaded_urls ({[url]} ∪ downloaded_urls d1) d1)))
                   with (is_downloading d1) in *.
                 rewrite Hfirst. cbn [play next monitor shared monitor_move].
                 now rewrite Hs.
        -- exists 1. cbn [repeat play next monitor shared monitor_move]. now rewrite Hs.
      * exists 1. cbn [repeat play next monitor shared monitor_move]. now rewrite Hs.
      * exists 1. cbn [repeat play next monitor shared monitor_move]. now rewrite Hs.
    + exists 1. cbn [repeat play next monitor shared monitor_move]. now rewrite Hs.
  - exists 1. cbn [repeat play next monitor shared monitor_move]. now rewrite Hs.
Qed.

(** So the states of [run], where each pass of the monitor is one action
    and [ydl_opts] can be built, are states of the program played move by
    move. *)
Lemma run_in_moves sn cfg tr : forall d d',
  sleep_interval sn cfg = Return tt -> buildable cfg = true ->
  run tr d = Some d' ->
  exists tr', play sn cfg tr' (Program MPaste d) = Some (Program MPaste d').
Proof.
  induction tr as [|a tr IH]; intros d d' Hs Hb; simpl.
  - intros [= <-]. now exists [].
  - destruct (exec a d) as [d1|] eqn:Ha; [|discriminate]. intros Hrun.
    destruct (IH d1 d' Hs Hb Hrun) as [tr2 H2].
    assert (H1 : exists tr1, play sn cfg tr1 (Program MPaste d) = Some (Program MPaste d1)).
    { destruct a as [p| |o]; simpl in Ha.
      - injection Ha as <-. destruct (tick_in_moves sn cfg p d Hs) as [n Hn]. eauto.
      - exists [Worker]. cbn [play next monitor shared].
        assert (Hw : worker_step_with cfg d = worker_step d).
        { unfold worker_step_with, worker_step, buildable in *.
          destruct (worker d); try reflexivity.
          now destruct (build_ydl_opts cfg). }
        now rewrite Hw, Ha.
      - exists [Comes o]. cbn [play next monitor shared]. now rewrite Ha. }
    destruct H1 as [tr1 H1]. exists (tr1 ++ tr2)%list. now rewrite play_app, H1.
Qed.

Lemma reachable_attainable sn cfg d :
  sleep_interval sn cfg = Return tt -> buildable cfg = true ->
  reachable d -> attainable sn cfg (Program MPaste d).
Proof.
  intros Hs Hb (notify & tr & Hrun).
  destruct (run_in_moves sn cfg tr _ _ Hs Hb Hrun) as [tr' H']. now exists notify, tr'.
Qed.
